(** * License-gated download API (index.js): a shallow embedding

    The program is an Express application with one core route,
    [POST /download].  A request carries a license key, a requesting domain
    and a file identifier; the handler checks the shape of the request,
    validates the entitlement against the in-memory table [LICENSES] and asks
    the object store for a signed URL valid for ten minutes.

    Conventions of the model:
    - a JavaScript string is a [string]; the source never inspects a code
      unit above 127, so a character outside ASCII behaves like any other
      character that is neither a word character nor punctuation;
    - a property that may be absent is an [option] ([None] is [undefined]);
    - a time value is a [Z], milliseconds since the epoch; [None] stands for
      [NaN] (an invalid [Date]);
    - effects (logger, wall clock, the awaited signing call, the rate
      limiter's store) are threaded through a state monad [M] over [World];
      the world keeps a chronological trace of the logger calls and of the
      calls the program makes to its own helpers and to the signer. *)

From Stdlib Require Import ZArith Ascii String List Bool Lia.
From stdpp Require Import base option gmap strings.

Import ListNotations.
Local Open Scope string_scope.
Local Open Scope Z_scope.

#[local] Arguments String.append !_ _ / : simpl nomatch.

(** ** JavaScript strings *)

Module JS.

(** [String.prototype.startsWith]: [pre] is an initial segment of [s]. *)
Fixpoint startsWith (s pre : string) {struct pre} : bool :=
  match pre with
  | EmptyString => true
  | String c pre' =>
      match s with
      | EmptyString => false
      | String d s' => Ascii.eqb d c && startsWith s' pre'
      end
  end.

(** [String.prototype.includes]: [sub] occurs in [s] at some position. *)
Fixpoint includes (s sub : string) : bool :=
  startsWith s sub ||
  match s with
  | EmptyString => false
  | String _ s' => includes s' sub
  end.

(** ToBoolean on a value that is a string or [undefined]: only [undefined]
    and the empty string are falsy. *)
Definition truthy (v : option string) : bool :=
  match v with
  | None => false
  | Some s => negb (String.eqb s "")
  end.

(** [a || b] on such values. *)
Definition or_else (a b : option string) : option string :=
  if truthy a then a else b.

(** The string held by a value already known to be a string. *)
Definition str (v : option string) : string :=
  match v with
  | Some s => s
  | None => "undefined"
  end.

(** [Array.prototype.includes] on an array of strings (SameValueZero on two
    strings is equality of their contents). *)
Definition array_includes (xs : list string) (x : string) : bool :=
  existsb (fun y => String.eqb y x) xs.

(** [Array.prototype.some]. *)
Definition some {A : Type} (xs : list A) (p : A -> bool) : bool :=
  existsb p xs.

End JS.

(** ** Regular expressions

    A small matcher by derivatives, enough for the pattern of
    [validateFileName].  A pattern anchored by [^] and [$] (no [m] flag) is
    tested against the whole input. *)

Module Regex.

Inductive re : Type :=
| Void                       (* matches nothing *)
| Eps                        (* the empty string *)
| Class (p : ascii -> bool)  (* one character of a class *)
| Seq (r1 r2 : re)
| Alt (r1 r2 : re)
| Star (r : re).

(** [r+] *)
Definition Plus (r : re) : re := Seq r (Star r).

(** a literal character, a literal string *)
Definition Chr (c : ascii) : re := Class (Ascii.eqb c).

Fixpoint Lit (s : string) : re :=
  match s with
  | EmptyString => Eps
  | String c s' => Seq (Chr c) (Lit s')
  end.

Fixpoint nullable (r : re) : bool :=
  match r with
  | Void => false
  | Eps => true
  | Class _ => false
  | Seq r1 r2 => nullable r1 && nullable r2
  | Alt r1 r2 => nullable r1 || nullable r2
  | Star _ => true
  end.

Fixpoint deriv (c : ascii) (r : re) : re :=
  match r with
  | Void => Void
  | Eps => Void
  | Class p => if p c then Eps else Void
  | Seq r1 r2 =>
      if nullable r1
      then Alt (Seq (deriv c r1) r2) (deriv c r2)
      else Seq (deriv c r1) r2
  | Alt r1 r2 => Alt (deriv c r1) (deriv c r2)
  | Star r1 => Seq (deriv c r1) (Star r1)
  end.

(** [/^r$/.test(s)] *)
Fixpoint test (r : re) (s : string) : bool :=
  match s with
  | EmptyString => nullable r
  | String c s' => test (deriv c r) s'
  end.

(** The language of a pattern, as a relation. *)
Inductive lang : re -> string -> Prop :=
| L_Eps : lang Eps ""
| L_Class p c : p c = true -> lang (Class p) (String c "")
| L_Seq r1 r2 s1 s2 : lang r1 s1 -> lang r2 s2 -> lang (Seq r1 r2) (s1 ++ s2)
| L_AltL r1 r2 s : lang r1 s -> lang (Alt r1 r2) s
| L_AltR r1 r2 s : lang r2 s -> lang (Alt r1 r2) s
| L_Star0 r : lang (Star r) ""
| L_StarS r c s1 s2 :
    lang r (String c s1) -> lang (Star r) s2 -> lang (Star r) (String c s1 ++ s2).

End Regex.

(** ** Dates

    The part of [Date] the program uses: the clock, the comparison of two
    time values, [toISOString], and the parsing of a date-only string. *)

Module Date.

Definition msPerDay : Z := 86400000.

(** Largest magnitude of a time value; [new Date(v)] beyond it is invalid. *)
Definition maxTime : Z := 8640000000000000.

(** TimeClip: [None] is [NaN]. *)
Definition TimeClip (v : Z) : option Z :=
  if (Z.abs v <=? maxTime) then Some v else None.

(** [a < b] on two time values; a comparison with [NaN] is false. *)
Definition lt (a b : option Z) : bool :=
  match a, b with
  | Some x, Some y => x <? y
  | _, _ => false
  end.

(** Days since the epoch of a date of the proleptic Gregorian calendar. *)
Definition days_from_civil (y m d : Z) : Z :=
  let y' := if m <=? 2 then y - 1 else y in
  let era := y' / 400 in
  let yoe := y' - era * 400 in
  let mp := if m >? 2 then m - 3 else m + 9 in
  let doy := (153 * mp + 2) / 5 + d - 1 in
  let doe := yoe * 365 + yoe / 4 - yoe / 100 + doy in
  era * 146097 + doe - 719468.

(** The date (year, month, day) of a day number. *)
Definition civil_from_days (z : Z) : Z * Z * Z :=
  let z' := z + 719468 in
  let era := z' / 146097 in
  let doe := z' - era * 146097 in
  let yoe := (doe - doe / 1460 + doe / 36524 - doe / 146096) / 365 in
  let doy := doe - (365 * yoe + yoe / 4 - yoe / 100) in
  let mp := (5 * doy + 2) / 153 in
  let d := doy - (153 * mp + 2) / 5 + 1 in
  let m := if mp <? 10 then mp + 3 else mp - 9 in
  let y := yoe + era * 400 in
  (if m <=? 2 then y + 1 else y, m, d).

Definition is_leap (y : Z) : bool :=
  ((y mod 4 =? 0) && negb (y mod 100 =? 0)) || (y mod 400 =? 0).

Definition days_in_month (y m : Z) : Z :=
  if m =? 2 then (if is_leap y then 29 else 28)
  else if (m =? 4) || (m =? 6) || (m =? 9) || (m =? 11) then 30
  else 31.

Definition digit_char (d : Z) : ascii := ascii_of_nat (48 + Z.to_nat d).

(** The last [width] decimal digits of [n], most significant first. *)
Fixpoint pad_digits (width : nat) (n : Z) (acc : string) : string :=
  match width with
  | O => acc
  | S w => pad_digits w (n / 10) (String (digit_char (n mod 10)) acc)
  end.

Definition digits (width : nat) (n : Z) : string := pad_digits width n "".

(** The year of the ISO format: four digits, or a sign and six digits. *)
Definition year_string (y : Z) : string :=
  if (0 <=? y) && (y <=? 9999) then digits 4 y
  else (if y <? 0 then "-" else "+") ++ digits 6 (Z.abs y).

(** [Date.prototype.toISOString]; [None] is the RangeError thrown on an
    invalid date. *)
Definition toISOString (t : option Z) : option string :=
  match t with
  | None => None
  | Some t =>
      let day := t / msPerDay in
      let ms := t mod msPerDay in
      let '(y, m, d) := civil_from_days day in
      Some (year_string y ++ "-" ++ digits 2 m ++ "-" ++ digits 2 d ++ "T"
            ++ digits 2 (ms / 3600000) ++ ":"
            ++ digits 2 ((ms / 60000) mod 60) ++ ":"
            ++ digits 2 ((ms / 1000) mod 60) ++ "."
            ++ digits 3 (ms mod 1000) ++ "Z")
  end.

Definition digit_value (c : ascii) : option Z :=
  let n := Z.of_nat (nat_of_ascii c) in
  if (48 <=? n) && (n <=? 57) then Some (n - 48) else None.

(** The number written by a string of decimal digits. *)
Fixpoint number (s : string) (acc : Z) : option Z :=
  match s with
  | EmptyString => Some acc
  | String c s' =>
      match digit_value c with
      | Some d => number s' (10 * acc + d)
      | None => None
      end
  end.

(** [Date.parse] on the date-only form [YYYY-MM-DD], which denotes midnight
    UTC of that day.  This is the only form the license table uses; what
    the runtime makes of other strings is left to the environment. *)
Definition parseDateOnly (s : string) : option Z :=
  if negb (Nat.eqb (String.length s) 10) then None
  else if negb (String.eqb (String.substring 4 1 s) "-") then None
  else if negb (String.eqb (String.substring 7 1 s) "-") then None
  else
    match number (String.substring 0 4 s) 0,
          number (String.substring 5 2 s) 0,
          number (String.substring 8 2 s) 0 with
    | Some y, Some m, Some d =>
        if (1 <=? m) && (m <=? 12) && (1 <=? d) && (d <=? days_in_month y m)
        then Some (days_from_civil y m d * msPerDay)
        else None
    | _, _, _ => None
    end.

End Date.

(** ** Data model *)

(** A value of the table [LICENSES]. *)
Record LicenseRecord : Type := mkLicense {
  active : bool;
  expires : string;
  domains : list string;
  files : list string
}.

(** [req.body], the parsed JSON object.  The wire protocol gives the three
    fields as strings; a field may be left out.  A request whose body did not
    parse to an object is not a [Request]. *)
Record Body : Type := mkBody {
  license : option string;
  domain : option string;
  file : option string
}.

(** The parts of an Express request the program reads. *)
Record Request : Type := mkRequest {
  origin : option string;         (* the Origin header *)
  ip : option string;             (* req.ip *)
  remoteAddress : option string;  (* req.connection.remoteAddress *)
  body : Body
}.

(** [data] of the success payload; [data_file] is its property [file]. *)
Record Grant : Type := mkGrant {
  url : string;
  expires_in : Z;
  expires_at : string;
  data_file : string
}.

(** What is sent back. *)
Inductive Payload : Type :=
| Failure (error : string)                   (* { success: false, error } *)
| Success (message : string) (data : Grant)  (* { success: true, message, data } *)
| ServerError (reason : string)              (* Express's own error page *)
| NotFound.                                  (* no layer answered *)

Record Response : Type := mkResponse {
  status : Z;
  payload : Payload
}.

(** [{ ok, error }] as returned by [validateLicense]. *)
Record Validation : Type := mkValidation {
  ok : bool;
  error : option string
}.

(** The input of [GetObjectCommand]. *)
Record GetObjectCommand : Type := mkCommand {
  Bucket : option string;
  Key : string
}.

(** How the awaited signing call settles. *)
Inductive Settled : Type :=
| Resolved (signedUrl : string)
| Threw (err : string).

(** Per-identity state of the rate limiter. *)
Record RateBucket : Type := mkBucket {
  windowStart : Z;
  count : Z
}.

Inductive Level : Type := Info | Warn | Error.

(** What the trace records: a logger call, or the entry into one of the
    program's functions or into the signer, with its arguments. *)
Inductive Event : Type :=
| Log (level : Level) (fields : list (string * option string)) (msg : string)
| Call_limiter (key : string)
| Call_validateFileName (file : string)
| Call_validateLicense (license domain file : string)
| Call_isExpired (dateStr : string)
| Call_generateSignedUrl (fileKey : string)
| Call_getSignedUrl (command : GetObjectCommand) (expiresIn : Z).

(** The mutable world of the process. *)
Record World : Type := mkWorld {
  now : Z;                        (* the wall clock *)
  trace : list Event;             (* chronological *)
  hits : gmap string RateBucket   (* the rate limiter's store *)
}.

(** What the process is given: the own properties of the license table
    (the functions below take any table; [LICENSES] is the one of the
    source), the runtime's date parser, the configured bucket, the signer
    with the time its call takes, and the address normaliser of the rate
    limiter. *)
Record Env : Type := mkEnv {
  licenses : gmap string LicenseRecord;
  Date_parse : string -> option Z;
  R2_BUCKET : option string;
  getSignedUrl : GetObjectCommand -> Z -> Z -> Settled;
  signing_ms : Z;
  ipKeyGenerator : Request -> string
}.

(** ** The monad of effects *)

Definition M (A : Type) : Type := World -> A * World.

Definition ret {A : Type} (a : A) : M A := fun w => (a, w).

Definition bind {A B : Type} (m : M A) (k : A -> M B) : M B :=
  fun w => let '(a, w') := m w in k a w'.

Notation "x <- m ;; k" := (bind m (fun x => k))
  (at level 100, m at next level, right associativity).
Notation "m ;; k" := (bind m (fun _ => k))
  (at level 100, right associativity).

Definition emit (e : Event) : M unit :=
  fun w => (tt, mkWorld (now w) (trace w ++ [e]) (hits w)).

(** [Date.now()], and the time value of [new Date()]. *)
Definition Date_now : M Z := fun w => (now w, w).

(** An awaited call that takes [ms] milliseconds. *)
Definition elapse (ms : Z) : M unit :=
  fun w => (tt, mkWorld (now w + ms) (trace w) (hits w)).

Definition log (level : Level) (fields : list (string * option string))
    (msg : string) : M unit :=
  emit (Log level fields msg).

(** [res.status(code).json(...)]; [res.json(...)] alone is status 200. *)
Definition json (code : Z) (p : Payload) : Response := mkResponse code p.

(** ** Property lookup on the object [LICENSES] *)

(** The properties every object literal inherits from [Object.prototype]. *)
Definition Object_prototype : list string :=
  [ "constructor"; "__defineGetter__"; "__defineSetter__"; "hasOwnProperty";
    "__lookupGetter__"; "__lookupSetter__"; "isPrototypeOf";
    "propertyIsEnumerable"; "toString"; "valueOf"; "__proto__";
    "toLocaleString" ].

(** The value of [LICENSES[key]]. *)
Inductive Property : Type :=
| Undefined
| Own (lic : LicenseRecord)
| Inherited (name : string).

(** [[[Get]]]: an own property first, then the prototype. *)
Definition get (o : gmap string LicenseRecord) (key : string) : Property :=
  match o !! key with
  | Some lic => Own lic
  | None => if JS.array_includes Object_prototype key then Inherited key else Undefined
  end.

(** ** The program *)

(** [allowedOrigins] *)
Definition allowedOrigins : list string :=
  [ "http://localhost"; "http://127.0.0.1"; "http://localhost:8888";
    "https://woozio.local" ].

(** The [origin] callback given to [cors]: a request without an Origin
    header passes, and so does one whose origin starts with an allowed one. *)
Definition corsOrigin (o : option string) : bool :=
  negb (JS.truthy o) ||
  JS.some allowedOrigins (fun allowed => JS.startsWith (JS.str o) allowed).

(** The limiter's options: [windowMs] and [max]. *)
Definition windowMs : Z := 15 * 60 * 1000.
Definition max : Z := 30.

(** [\w]: a letter, a digit or the underscore. *)
Definition word_char (c : ascii) : bool :=
  let n := nat_of_ascii c in
  ((97 <=? n) && (n <=? 122))%nat || ((65 <=? n) && (n <=? 90))%nat ||
  ((48 <=? n) && (n <=? 57))%nat || (n =? 95)%nat.

(** The class [[\w\-\/]]. *)
Definition name_char (c : ascii) : bool :=
  word_char c || Ascii.eqb c "-" || Ascii.eqb c "/".

(** The pattern [/^[\w\-\/]+\.zip$/]. *)
Definition fileNamePattern : Regex.re :=
  Regex.Seq (Regex.Plus (Regex.Class name_char)) (Regex.Lit ".zip").

Definition reject (reason : string) : Validation := mkValidation false (Some reason).
Definition accept : Validation := mkValidation true None.

Section Program.

Variable env : Env.

(** A layer of the Express stack: it answers, or hands over to the next. *)
Definition Middleware : Type := Request -> M (option Response).

(** [keyGenerator] of the limiter. *)
Definition keyGenerator (req : Request) : string :=
  JS.str (JS.or_else (license (body req)) (Some (ipKeyGenerator env req))).

(** [handler] of the limiter. *)
Definition limitExceeded (req : Request) : M Response :=
  log Warn [("ip", ip req); ("license", license (body req))] "Rate limit exceeded" ;;
  ret (json 429 (Failure "Too many requests. Please try again later.")).

(** Modelled from the spec: the middleware built by [rateLimit] of the
    package express-rate-limit, which is not part of the repository.  Per
    identity, the first request opens a window with count 1; a request more
    than [windowMs] after the start of the window opens a new one with count
    1; any other request increments the count.  A count above [max] is
    answered by the limiter's handler and goes no further. *)
Definition limiter : Middleware := fun req =>
  let key := keyGenerator req in
  emit (Call_limiter key) ;;
  t <- Date_now ;;
  fun w =>
    let bucket :=
      match hits w !! key with
      | None => mkBucket t 1
      | Some b =>
          if t - windowStart b >? windowMs then mkBucket t 1
          else mkBucket (windowStart b) (count b + 1)
      end in
    let w' := mkWorld (now w) (trace w) (<[key := bucket]> (hits w)) in
    if count bucket >? max
    then (r <- limitExceeded req ;; ret (Some r)) w'
    else (None, w').

(** [cors({ origin, ... })] on a request that is not a preflight: a refused
    origin ends in Express's error handler. *)
Definition cors : Middleware := fun req =>
  if corsOrigin (origin req) then ret None
  else ret (Some (mkResponse 500 (ServerError "Not allowed by CORS"))).

(** [express.json()]: the body of a [Request] is already parsed. *)
Definition express_json : Middleware := fun _ => ret None.

(** [isExpired(dateStr)]: [new Date(dateStr) < new Date()]. *)
Definition isExpired (dateStr : string) : M bool :=
  emit (Call_isExpired dateStr) ;;
  t <- Date_now ;;
  ret (Date.lt (Date_parse env dateStr) (Some t)).

(** [validateFileName(file)] *)
Definition validateFileName (file : string) : M bool :=
  emit (Call_validateFileName file) ;;
  ret (Regex.test fileNamePattern file).

(** [validateLicense({ license, domain, file })].  A value inherited from
    [Object.prototype] is truthy and has no property [active]. *)
Definition validateLicense (license domain file : string) : M Validation :=
  emit (Call_validateLicense license domain file) ;;
  match get (licenses env) license with
  | Undefined => ret (reject "License not found")
  | Inherited _ => ret (reject "License inactive")
  | Own lic =>
      if negb (active lic) then ret (reject "License inactive") else
      expired <- isExpired (expires lic) ;;
      if expired then ret (reject "License expired") else
      if negb (JS.some (domains lic) (fun allowed => JS.includes domain allowed))
      then ret (reject "Domain not allowed") else
      if negb (JS.array_includes (files lic) file)
      then ret (reject "File not permitted for this license") else
      ret accept
  end.

(** [await getSignedUrl(r2, command, { expiresIn })] *)
Definition await_getSignedUrl (command : GetObjectCommand) (expiresIn : Z)
    : M Settled :=
  emit (Call_getSignedUrl command expiresIn) ;;
  t <- Date_now ;;
  elapse (signing_ms env) ;;
  ret (getSignedUrl env command expiresIn t).

(** [generateSignedUrl(fileKey)] *)
Definition generateSignedUrl (fileKey : string) : M Settled :=
  emit (Call_generateSignedUrl fileKey) ;;
  let command := mkCommand (R2_BUCKET env) fileKey in
  await_getSignedUrl command (60 * 10).

(** The handler of [app.post('/download', ...)]. *)
Definition download (req : Request) : M Response :=
  let license := license (body req) in
  let domain := domain (body req) in
  let file := file (body req) in
  let ip := JS.or_else (ip req) (remoteAddress req) in
  log Info [("ip", ip); ("license", license); ("domain", domain); ("file", file)]
    "Download request received" ;;
  (* 1. Validate input *)
  if negb (JS.truthy license) || negb (JS.truthy domain) || negb (JS.truthy file)
  then
    log Warn [("ip", ip)] "Missing required fields" ;;
    ret (json 400 (Failure "Missing license, domain, or file"))
  else
  (* 2. Validate file name format *)
  nameOk <- validateFileName (JS.str file) ;;
  if negb nameOk
  then
    log Warn [("ip", ip); ("file", file)] "Invalid file name format" ;;
    ret (json 400 (Failure "Invalid file name"))
  else
  (* 3. Validate license *)
  validation <- validateLicense (JS.str license) (JS.str domain) (JS.str file) ;;
  if negb (ok validation)
  then
    log Warn [("ip", ip); ("license", license); ("domain", domain);
              ("file", file); ("error", error validation)]
      "License validation failed" ;;
    ret (json 403 (Failure (JS.str (error validation))))
  else
  (* 4. Generate signed URL *)
  let catch (err : string) : M Response :=
    log Error [("err", Some err); ("ip", ip); ("file", file)]
      "Failed to generate signed URL" ;;
    ret (json 500 (Failure "Failed to generate download URL. Please try again later.")) in
  settled <- generateSignedUrl (JS.str file) ;;
  match settled with
  | Threw err => catch err
  | Resolved signedUrl =>
      log Info [("ip", ip); ("license", license); ("domain", domain); ("file", file)]
        "Signed URL generated successfully" ;;
      t <- Date_now ;;
      match Date.toISOString (Date.TimeClip (t + 600 * 1000)) with
      | None => catch "RangeError: Invalid time value"
      | Some iso =>
          ret (json 200 (Success "License and domain verified"
                           (mkGrant signedUrl 600 iso (JS.str file))))
      end
  end.

(** The layers a [POST /download] request runs through, in the order of
    their registration: [app.use(cors(...))], [app.use(express.json(...))],
    [app.post('/download', ...)]. *)
Definition post_download : list Middleware :=
  [ cors; express_json; fun req => r <- download req ;; ret (Some r) ].

(** Express's dispatch: the first layer that answers ends the request. *)
Fixpoint dispatch (layers : list Middleware) (req : Request) : M Response :=
  match layers with
  | [] => ret (mkResponse 404 NotFound)
  | layer :: rest =>
      r <- layer req ;;
      match r with
      | Some resp => ret resp
      | None => dispatch rest req
      end
  end.

(** The application on a [POST /download] request. *)
Definition app (req : Request) : M Response := dispatch post_download req.

(** The same stack with the limiter mounted on the route, for comparison. *)
Definition post_download_limited : list Middleware :=
  [ cors; express_json; limiter; fun req => r <- download req ;; ret (Some r) ].

(** A client sending the same request [n] times, [gap] milliseconds after
    each answer; the answers, first to last. *)
Fixpoint serve (layers : list Middleware) (gap : Z) (n : nat) (req : Request)
    : M (list Response) :=
  match n with
  | O => ret []
  | S n' =>
      r <- dispatch layers req ;;
      elapse gap ;;
      rs <- serve layers gap n' req ;;
      ret (r :: rs)
  end.

End Program.

(** ** The seeded table *)

(** The object literal [LICENSES]. *)
Definition LICENSES : gmap string LicenseRecord :=
  <[ "ABC-123-XYZ" :=
       mkLicense true "2026-12-31"
         ["localhost"; "127.0.0.1"; "woozio.local"; "demo.yourtheme.com"]
         ["package-install__woozio-main.zip"; "theme-a/demo.zip"; "theme-b/demo.zip"] ]>
  (<[ "TEST-999-KEY" :=
       mkLicense true "2026-01-01" ["localhost"] ["package-install__woozio-main.zip"] ]>
   ∅).

(** The process with the seeded table, for a given bucket and signer; the
    address normaliser is taken to return the client's address as it is. *)
Definition node (bucket : option string)
    (signer : GetObjectCommand -> Z -> Z -> Settled) (ms : Z) : Env :=
  mkEnv LICENSES Date.parseDateOnly bucket signer ms
        (fun req => JS.str (JS.or_else (ip req) (remoteAddress req))).

(** A world with an empty trace and an empty limiter store. *)
Definition boot (t : Z) : World := mkWorld t [] ∅.

(** ** Vocabulary of the specification

    The notions the specification states its properties with, written after
    its words, to be compared with what the program computes. *)

(** [a] occurs in [s]. *)
Definition is_substring (a s : string) : Prop :=
  exists pre post, s = pre ++ a ++ post.

(** The file-name grammar: one or more word characters, hyphens,
    underscores and slashes, then the suffix [.zip]. *)
Definition safe_name (f : string) : Prop :=
  exists stem,
    f = stem ++ ".zip" /\ stem <> "" /\
    Forall (fun c => name_char c = true) (list_ascii_of_string stem).

(** The events a computation adds to the trace. *)
Definition emitted {A : Type} (m : M A) (w : World) : list Event :=
  skipn (length (trace w)) (trace (snd (m w))).

Definition is_limiter_call (e : Event) : bool :=
  match e with Call_limiter _ => true | _ => false end.

Definition is_grammar_call (e : Event) : bool :=
  match e with Call_validateFileName _ => true | _ => false end.

(** The Validator is [validateLicense] with its helper [isExpired]. *)
Definition is_validator_call (e : Event) : bool :=
  match e with
  | Call_validateLicense _ _ _ | Call_isExpired _ => true
  | _ => false
  end.

Definition is_signer_call (e : Event) : bool :=
  match e with
  | Call_generateSignedUrl _ | Call_getSignedUrl _ _ => true
  | _ => false
  end.

(** The five checks of the Validator on what the key resolves to. *)
Definition resolves (p : Property) : bool :=
  match p with Undefined => false | _ => true end.

Definition is_active (p : Property) : bool :=
  match p with Own lic => active lic | _ => false end.

Definition expired_at (parse : string -> option Z) (t : Z) (p : Property) : bool :=
  match p with
  | Own lic => Date.lt (parse (expires lic)) (Some t)
  | _ => false
  end.

Definition domain_allowed (p : Property) (domain : string) : bool :=
  match p with
  | Own lic => JS.some (domains lic) (fun allowed => JS.includes domain allowed)
  | _ => false
  end.

Definition file_permitted (p : Property) (file : string) : bool :=
  match p with
  | Own lic => JS.array_includes (files lic) file
  | _ => false
  end.

(** The checks in the order of the specification, each with the reason it
    gives when it fails. *)
Definition checks (env : Env) (t : Z) (license domain file : string)
    : list (bool * string) :=
  let p := get (licenses env) license in
  [ (resolves p, "License not found");
    (is_active p, "License inactive");
    (negb (expired_at (Date_parse env) t p), "License expired");
    (domain_allowed p domain, "Domain not allowed");
    (file_permitted p file, "File not permitted for this license") ].

(** The reason of the first check that fails, if any. *)
Fixpoint first_failure (cs : list (bool * string)) : option string :=
  match cs with
  | [] => None
  | (passed, reason) :: rest => if passed then first_failure rest else Some reason
  end.

(** The verdict of ordered, short-circuiting checks. *)
Definition verdict (cs : list (bool * string)) : Validation :=
  match first_failure cs with
  | None => accept
  | Some reason => reject reason
  end.

(** The same request with another body. *)
Definition with_body (req : Request) (b : Body) : Request :=
  mkRequest (origin req) (ip req) (remoteAddress req) b.

(** The world after more events. *)
Definition extend (w : World) (es : list Event) : World :=
  mkWorld (now w) (trace w ++ es) (hits w).

(** The world after an awaited call of [ms] milliseconds. *)
Definition later (w : World) (ms : Z) : World :=
  mkWorld (now w + ms) (trace w) (hits w).

(** [ip] as the handler computes it. *)
Definition clientIp (req : Request) : option string :=
  JS.or_else (ip req) (remoteAddress req).

(** The log line every request to the handler starts with. *)
Definition received (req : Request) : Event :=
  Log Info [("ip", clientIp req); ("license", license (body req));
            ("domain", domain (body req)); ("file", file (body req))]
    "Download request received".

(** All three fields are present and not empty. *)
Definition complete (b : Body) : bool :=
  JS.truthy (license b) && JS.truthy (domain b) && JS.truthy (file b).

(** What a run of the Validator adds to the trace: its own entry, and the
    entry into [isExpired] when the key resolves to an active record. *)
Definition validator_events (env : Env) (license domain file : string)
    : list Event :=
  Call_validateLicense license domain file ::
  match get (licenses env) license with
  | Own lic => if active lic then [Call_isExpired (expires lic)] else []
  | _ => []
  end.

(** The number of dots in a string. *)
Definition dots (s : string) : nat :=
  List.count_occ ascii_dec (list_ascii_of_string s) "."%char.

(** A field given as the empty string, taken as not given at all. *)
Definition absent_if_empty (v : option string) : option string :=
  match v with
  | Some "" => None
  | _ => v
  end.

(** The body with every empty field removed. *)
Definition without_empty (b : Body) : Body :=
  mkBody (absent_if_empty (license b)) (absent_if_empty (domain b))
         (absent_if_empty (file b)).

(** The answers the handler can give. *)
Definition handler_answer (r : Response) : Prop :=
  r = json 400 (Failure "Missing license, domain, or file") \/
  r = json 400 (Failure "Invalid file name") \/
  (exists reason, r = json 403 (Failure reason)) \/
  r = json 500 (Failure "Failed to generate download URL. Please try again later.") \/
  (exists grant, r = json 200 (Success "License and domain verified" grant)).

(** ** Sample inputs *)

(** A signer that always resolves, and one that always throws. *)
Definition sample_signer (command : GetObjectCommand) (expiresIn t : Z) : Settled :=
  Resolved ("https://r2.example/" ++ Key command ++ "?X-Amz-Expires=600").

Definition failing_signer (command : GetObjectCommand) (expiresIn t : Z) : Settled :=
  Threw "CredentialsProviderError: Could not load credentials".

Definition sample_env : Env := node (Some "downloads") sample_signer 25.
Definition failing_env : Env := node (Some "downloads") failing_signer 25.

(** 2025-11-02T23:35:25.123Z, before either seeded license expires. *)
Definition sample_time : Z := 1762126525123.

Definition sample_world : World := boot sample_time.

(** A request without an Origin header from a fixed address. *)
Definition post (license domain file : option string) : Request :=
  mkRequest None (Some "203.0.113.7") None (mkBody license domain file).

(** Requests that fail a shape check. *)
Definition no_domain : Request :=
  post (Some "ABC-123-XYZ") None (Some "theme-a/demo.zip").

Definition empty_license : Request :=
  post (Some "") (Some "localhost") (Some "theme-a/demo.zip").

Definition traversal : Request :=
  post (Some "ABC-123-XYZ") (Some "localhost") (Some "../../etc/passwd").

(** A safe file name, a seeded key, a domain that holds no allowed entry. *)
Definition wrong_domain : Request :=
  post (Some "ABC-123-XYZ") (Some "evil.example") (Some "theme-a/demo.zip").

(** The fully valid triple of the specification. *)
Definition valid : Request :=
  post (Some "ABC-123-XYZ") (Some "demo.yourtheme.com") (Some "theme-a/demo.zip").

(** One valid request, to be sent over and over by the same client. *)
Definition burst : Request :=
  post (Some "ABC-123-XYZ") (Some "localhost") (Some "theme-a/demo.zip").

(** ** The earlier revision of the handler

    The source file also keeps the first revision of the program (its test
    mode): the same table lookup and expiry check, an exact match of the
    domain, no check of the file name, a payload that holds the URL only,
    and [console.error] for a failed signing.  [isExpired] and
    [generateSignedUrl] are the same functions as above. *)

Module Legacy.

Inductive Payload : Type :=
| Failure (error : string)            (* { success: false, error } *)
| Success (message : string) (url : string).  (* { success: true, message, data: { url } } *)

Record Response : Type := mkResponse {
  status : Z;
  payload : Payload
}.

Definition json (code : Z) (p : Payload) : Response := mkResponse code p.

Section Program.

Variable env : Env.

(** [validateLicense({ license, domain, file })] of the first revision. *)
Definition validateLicense (license domain file : string) : M Validation :=
  emit (Call_validateLicense license domain file) ;;
  match get (licenses env) license with
  | Undefined => ret (reject "License not found")
  | Inherited _ => ret (reject "License inactive")
  | Own lic =>
      if negb (active lic) then ret (reject "License inactive") else
      expired <- isExpired env (expires lic) ;;
      if expired then ret (reject "License expired") else
      if negb (JS.array_includes (domains lic) domain)
      then ret (reject "Domain not allowed") else
      if negb (JS.array_includes (files lic) file)
      then ret (reject "File not permitted") else
      ret accept
  end.

(** The handler of the first revision; beside the answer, what it wrote
    with [console.error]. *)
Definition download (req : Request) : M (Response * list string) :=
  let license := license (body req) in
  let domain := domain (body req) in
  let file := file (body req) in
  (* 1. Validate input *)
  if negb (JS.truthy license) || negb (JS.truthy domain) || negb (JS.truthy file)
  then ret (json 400 (Failure "Missing license, domain, or file"), [])
  else
  (* 2. Validate license *)
  result <- validateLicense (JS.str license) (JS.str domain) (JS.str file) ;;
  if negb (ok result)
  then ret (json 403 (Failure (JS.str (error result))), [])
  else
  (* 3. Generate R2 signed URL *)
  settled <- generateSignedUrl env (JS.str file) ;;
  match settled with
  | Resolved signedUrl => ret (json 200 (Success "License & domain valid" signedUrl), [])
  | Threw err => ret (json 500 (Failure "Failed to generate download URL"), [err])
  end.

End Program.

End Legacy.

(** ** Runs of the handler, as a relation

    The six ways a request goes through [download]: what is answered and
    what the world is afterwards, by the checks passed on the way. *)

Inductive handled (env : Env) (req : Request) (w : World)
    : Response * World -> Prop :=
| H_missing :
    complete (body req) = false ->
    handled env req w
      (json 400 (Failure "Missing license, domain, or file"),
       extend w [received req;
                 Log Warn [("ip", clientIp req)] "Missing required fields"])
| H_bad_name :
    complete (body req) = true ->
    Regex.test fileNamePattern (JS.str (file (body req))) = false ->
    handled env req w
      (json 400 (Failure "Invalid file name"),
       extend w [received req; Call_validateFileName (JS.str (file (body req)));
                 Log Warn [("ip", clientIp req); ("file", file (body req))]
                   "Invalid file name format"])
| H_rejected (reason : string) :
    complete (body req) = true ->
    Regex.test fileNamePattern (JS.str (file (body req))) = true ->
    first_failure (checks env (now w) (JS.str (license (body req)))
                     (JS.str (domain (body req))) (JS.str (file (body req))))
      = Some reason ->
    handled env req w
      (json 403 (Failure reason),
       extend w ([received req; Call_validateFileName (JS.str (file (body req)))] ++
                 validator_events env (JS.str (license (body req)))
                   (JS.str (domain (body req))) (JS.str (file (body req))) ++
                 [Log Warn [("ip", clientIp req); ("license", license (body req));
                            ("domain", domain (body req)); ("file", file (body req));
                            ("error", Some reason)]
                    "License validation failed"]))
| H_threw (err : string) :
    complete (body req) = true ->
    Regex.test fileNamePattern (JS.str (file (body req))) = true ->
    first_failure (checks env (now w) (JS.str (license (body req)))
                     (JS.str (domain (body req))) (JS.str (file (body req))))
      = None ->
    getSignedUrl env (mkCommand (R2_BUCKET env) (JS.str (file (body req)))) 600 (now w)
      = Threw err ->
    handled env req w
      (json 500 (Failure "Failed to generate download URL. Please try again later."),
       later (extend w
                ([received req; Call_validateFileName (JS.str (file (body req)))] ++
                 validator_events env (JS.str (license (body req)))
                   (JS.str (domain (body req))) (JS.str (file (body req))) ++
                 [Call_generateSignedUrl (JS.str (file (body req)));
                  Call_getSignedUrl
                    (mkCommand (R2_BUCKET env) (JS.str (file (body req)))) 600;
                  Log Error [("err", Some err); ("ip", clientIp req);
                             ("file", file (body req))]
                    "Failed to generate signed URL"]))
             (signing_ms env))
| H_out_of_range (signedUrl : string) :
    complete (body req) = true ->
    Regex.test fileNamePattern (JS.str (file (body req))) = true ->
    first_failure (checks env (now w) (JS.str (license (body req)))
                     (JS.str (domain (body req))) (JS.str (file (body req))))
      = None ->
    getSignedUrl env (mkCommand (R2_BUCKET env) (JS.str (file (body req)))) 600 (now w)
      = Resolved signedUrl ->
    Date.toISOString (Date.TimeClip (now w + signing_ms env + 600 * 1000)) = None ->
    handled env req w
      (json 500 (Failure "Failed to generate download URL. Please try again later."),
       later (extend w
                ([received req; Call_validateFileName (JS.str (file (body req)))] ++
                 validator_events env (JS.str (license (body req)))
                   (JS.str (domain (body req))) (JS.str (file (body req))) ++
                 [Call_generateSignedUrl (JS.str (file (body req)));
                  Call_getSignedUrl
                    (mkCommand (R2_BUCKET env) (JS.str (file (body req)))) 600;
                  Log Info [("ip", clientIp req); ("license", license (body req));
                            ("domain", domain (body req)); ("file", file (body req))]
                    "Signed URL generated successfully";
                  Log Error [("err", Some "RangeError: Invalid time value");
                             ("ip", clientIp req); ("file", file (body req))]
                    "Failed to generate signed URL"]))
             (signing_ms env))
| H_granted (signedUrl iso : string) :
    complete (body req) = true ->
    Regex.test fileNamePattern (JS.str (file (body req))) = true ->
    first_failure (checks env (now w) (JS.str (license (body req)))
                     (JS.str (domain (body req))) (JS.str (file (body req))))
      = None ->
    getSignedUrl env (mkCommand (R2_BUCKET env) (JS.str (file (body req)))) 600 (now w)
      = Resolved signedUrl ->
    Date.toISOString (Date.TimeClip (now w + signing_ms env + 600 * 1000)) = Some iso ->
    handled env req w
      (json 200 (Success "License and domain verified"
                   (mkGrant signedUrl 600 iso (JS.str (file (body req))))),
       later (extend w
                ([received req; Call_validateFileName (JS.str (file (body req)))] ++
                 validator_events env (JS.str (license (body req)))
                   (JS.str (domain (body req))) (JS.str (file (body req))) ++
                 [Call_generateSignedUrl (JS.str (file (body req)));
                  Call_getSignedUrl
                    (mkCommand (R2_BUCKET env) (JS.str (file (body req)))) 600;
                  Log Info [("ip", clientIp req); ("license", license (body req));
                            ("domain", domain (body req)); ("file", file (body req))]
                    "Signed URL generated successfully"]))
             (signing_ms env)).

(** ** More vocabulary *)

(** The five reasons of the Validator. *)
Definition reasons : list string :=
  [ "License not found"; "License inactive"; "License expired";
    "Domain not allowed"; "File not permitted for this license" ].

(** The process with another signer. *)
Definition with_signer (env : Env)
    (signer : GetObjectCommand -> Z -> Z -> Settled) : Env :=
  mkEnv (licenses env) (Date_parse env) (R2_BUCKET env) signer (signing_ms env)
        (ipKeyGenerator env).

(** The level of a log line, if the event is one. *)
Definition log_level (e : Event) : option Level :=
  match e with
  | Log level _ _ => Some level
  | _ => None
  end.

(** The level the handler logs an answer of a given status with. *)
Definition level_of_status (code : Z) : Level :=
  if code =? 200 then Info else if code =? 500 then Error else Warn.


(** A table for the edges of the Validator: an expiry that is no date and an
    empty string among the domains; a record without domains; a record
    without files; a file name outside the grammar. *)
Definition edge_table : gmap string LicenseRecord :=
  <[ "OPEN-KEY" := mkLicense true "never" [""] ["pkg.zip"] ]>
  (<[ "NO-DOMAINS" := mkLicense true "2026-12-31" [] ["pkg.zip"] ]>
   (<[ "NO-FILES" := mkLicense true "2026-12-31" ["localhost"] [] ]>
    (<[ "OLD-KEY" := mkLicense true "2026-12-31" ["localhost"] ["old release.zip"] ]>
     ∅))).

Definition edge_env : Env :=
  mkEnv edge_table Date.parseDateOnly (Some "downloads") sample_signer 25
        (fun req => JS.str (JS.or_else (ip req) (remoteAddress req))).


(** ** Facts about strings *)

Lemma append_eq_empty (a b : string) : a ++ b = "" -> a = "" /\ b = "".
Proof. destruct a; simpl; [auto | discriminate]. Qed.

Lemma list_ascii_app (a b : string) :
  list_ascii_of_string (a ++ b) = (list_ascii_of_string a ++ list_ascii_of_string b)%list.
Proof. induction a as [|x a IH]; simpl; [reflexivity | now rewrite IH]. Qed.

Lemma startsWith_spec (s pre : string) :
  JS.startsWith s pre = true <-> exists post, s = pre ++ post.
Proof.
  revert s. induction pre as [|c pre IH]; intros s; simpl.
  - split; [intros _; now exists s | reflexivity].
  - destruct s as [|d s].
    + split; [discriminate | intros [post H]; discriminate].
    + rewrite andb_true_iff, Ascii.eqb_eq, IH. split.
      * intros [-> [post ->]]. now exists post.
      * intros [post H]. injection H as -> ->. split; [reflexivity | now exists post].
Qed.

Lemma includes_spec (s sub : string) :
  JS.includes s sub = true <-> is_substring sub s.
Proof.
  unfold is_substring. induction s as [|c s IH].
  - simpl. rewrite orb_false_r, startsWith_spec. split.
    + intros [post H]. now exists "", post.
    + intros [pre [post H]]. symmetry in H.
      apply append_eq_empty in H as [-> H]. simpl in H. now exists post.
  - cbn [JS.includes]. rewrite orb_true_iff, startsWith_spec, IH. split.
    + intros [[post H] | [pre [post H]]].
      * now exists "", post.
      * exists (String c pre), post. simpl. now rewrite H.
    + intros [[|d pre] [post H]].
      * left. now exists post.
      * right. simpl in H. injection H as _ H. now exists pre, post.
Qed.

Lemma array_includes_spec (xs : list string) (x : string) :
  JS.array_includes xs x = true <-> In x xs.
Proof.
  unfold JS.array_includes. rewrite existsb_exists. split.
  - intros [y [Hy E]]. apply String.eqb_eq in E. now subst.
  - intros H. exists x. split; [assumption | apply String.eqb_refl].
Qed.

Lemma truthy_spec (v : option string) :
  JS.truthy v = true <-> exists s, v = Some s /\ s <> "".
Proof.
  destruct v as [s|]; simpl.
  - rewrite negb_true_iff, String.eqb_neq. split.
    + intros H. now exists s.
    + intros [s' [E H]]. now injection E as ->.
  - split; [discriminate | intros [s [E _]]; discriminate].
Qed.

(** ** Facts about dates *)

Example epoch_iso : Date.toISOString (Some 0) = Some "1970-01-01T00:00:00.000Z".
Proof. reflexivity. Qed.

Example before_epoch_iso :
  Date.toISOString (Some (-1)) = Some "1969-12-31T23:59:59.999Z".
Proof. reflexivity. Qed.

Example last_time_value_iso :
  Date.toISOString (Date.TimeClip Date.maxTime) = Some "+275760-09-13T00:00:00.000Z".
Proof. reflexivity. Qed.

Example beyond_last_time_value : Date.toISOString (Date.TimeClip (Date.maxTime + 1)) = None.
Proof. reflexivity. Qed.

Example seeded_expiry_parsed :
  Date.parseDateOnly "2026-12-31" = Some 1798675200000 /\
  Date.parseDateOnly "2026-01-01" = Some 1767225600000.
Proof. split; reflexivity. Qed.

Example seeded_expiry_printed :
  Date.toISOString (Date.parseDateOnly "2026-12-31") = Some "2026-12-31T00:00:00.000Z".
Proof. reflexivity. Qed.

Example not_a_date : Date.parseDateOnly "2026-02-30" = None.
Proof. reflexivity. Qed.

(** A comparison with an invalid date is false: such a license never expires. *)
Lemma lt_invalid (t : option Z) : Date.lt None t = false.
Proof. reflexivity. Qed.

(** ** Facts about the matcher *)

Section RegexFacts.

Import Regex.

Lemma nullable_spec (r : re) : nullable r = true <-> lang r "".
Proof.
  induction r as [| |p|r1 IH1 r2 IH2|r1 IH1 r2 IH2|r IH]; simpl.
  - split; [discriminate | intros H; inversion H].
  - split; [intros _; constructor | reflexivity].
  - split; [discriminate | intros H; inversion H].
  - rewrite andb_true_iff, IH1, IH2. split.
    + intros [H1 H2]. apply (L_Seq _ _ "" "" H1 H2).
    + intros H. inversion H; subst.
      match goal with
      | E : _ ++ _ = "" |- _ => apply append_eq_empty in E as [-> ->]
      end.
      now split.
  - rewrite orb_true_iff, IH1, IH2. split.
    + intros [H|H]; [now apply L_AltL | now apply L_AltR].
    + intros H. inversion H; subst; [now left | now right].
  - split; [intros _; constructor | reflexivity].
Qed.

Lemma lang_eps (s : string) : lang Eps s <-> s = "".
Proof. split; [intros H; now inversion H | intros ->; constructor]. Qed.

Lemma lang_class (p : ascii -> bool) (s : string) :
  lang (Class p) s <-> exists c, s = String c "" /\ p c = true.
Proof.
  split.
  - intros H. inversion H; subst. eauto.
  - intros [c [-> H]]. now constructor.
Qed.

Lemma lang_seq (r1 r2 : re) (s : string) :
  lang (Seq r1 r2) s <-> exists s1 s2, s = s1 ++ s2 /\ lang r1 s1 /\ lang r2 s2.
Proof.
  split.
  - intros H. inversion H; subst. eauto.
  - intros [s1 [s2 [-> [H1 H2]]]]. now constructor.
Qed.

Lemma lang_alt (r1 r2 : re) (s : string) :
  lang (Alt r1 r2) s <-> lang r1 s \/ lang r2 s.
Proof.
  split.
  - intros H. inversion H; subst; auto.
  - intros [H|H]; [now apply L_AltL | now apply L_AltR].
Qed.

Lemma lang_star_cons (r : re) (c : ascii) (s : string) :
  lang (Star r) (String c s) <->
  exists s1 s2, s = s1 ++ s2 /\ lang r (String c s1) /\ lang (Star r) s2.
Proof.
  split.
  - intros H. inversion H; subst. eauto.
  - intros [s1 [s2 [-> [H1 H2]]]]. apply (L_StarS _ _ _ _ H1 H2).
Qed.

Lemma deriv_spec (c : ascii) (r : re) (s : string) :
  lang (deriv c r) s <-> lang r (String c s).
Proof.
  revert s.
  induction r as [| |p|r1 IH1 r2 IH2|r1 IH1 r2 IH2|r IH]; intros s; simpl.
  - split; intros H; inversion H.
  - split; intros H; inversion H.
  - rewrite lang_class. destruct (p c) eqn:E.
    + rewrite lang_eps. split.
      * intros ->. eauto.
      * intros [d [H _]]. now injection H.
    + split; [intros H; inversion H |].
      intros [d [H Hd]]. injection H as <-. congruence.
  - assert (Hcons : lang (Seq (deriv c r1) r2) s <->
                    exists s1 s2, s = s1 ++ s2 /\ lang r1 (String c s1) /\ lang r2 s2).
    { rewrite lang_seq. split; intros [s1 [s2 [E [H1 H2]]]]; exists s1, s2;
        (split; [assumption | split; [now apply IH1 | assumption]]). }
    rewrite (lang_seq r1 r2). destruct (nullable r1) eqn:N.
    + rewrite lang_alt, Hcons, IH2. split.
      * intros [[s1 [s2 [-> [H1 H2]]]] | H].
        -- now exists (String c s1), s2.
        -- exists "", (String c s). repeat split; [now apply nullable_spec | assumption].
      * intros [[|d s1] [s2 [E [H1 H2]]]]; simpl in E.
        -- right. now rewrite E.
        -- left. injection E as <- ->. eauto.
    + rewrite Hcons. split.
      * intros [s1 [s2 [-> [H1 H2]]]]. now exists (String c s1), s2.
      * intros [[|d s1] [s2 [E [H1 H2]]]]; simpl in E.
        -- apply nullable_spec in H1. congruence.
        -- injection E as <- ->. eauto.
  - rewrite !lang_alt, IH1, IH2. reflexivity.
  - rewrite lang_star_cons, lang_seq. split; intros [s1 [s2 [E [H1 H2]]]];
      exists s1, s2; (split; [assumption | split; [now apply IH | assumption]]).
Qed.

Lemma test_spec (r : re) (s : string) : test r s = true <-> lang r s.
Proof.
  revert r. induction s as [|c s IH]; intros r; simpl.
  - apply nullable_spec.
  - rewrite IH. apply deriv_spec.
Qed.

Lemma lang_lit (s x : string) : lang (Lit s) x <-> x = s.
Proof.
  revert x. induction s as [|c s IH]; intros x; simpl.
  - apply lang_eps.
  - rewrite lang_seq. unfold Chr. split.
    + intros [s1 [s2 [-> [H1 H2]]]]. apply lang_class in H1 as [d [-> Hd]].
      apply Ascii.eqb_eq in Hd. apply IH in H2. now subst.
    + intros ->. exists (String c ""), s. repeat split.
      * apply lang_class. exists c. split; [reflexivity | apply Ascii.eqb_refl].
      * now apply IH.
Qed.

Lemma lang_star_class (p : ascii -> bool) (s : string) :
  lang (Star (Class p)) s <->
  Forall (fun c => p c = true) (list_ascii_of_string s).
Proof.
  induction s as [|c s IH]; simpl.
  - split; [constructor | intros _; constructor].
  - rewrite lang_star_cons. split.
    + intros [s1 [s2 [-> [H1 H2]]]]. apply lang_class in H1 as [d [E Hd]].
      injection E as -> ->. constructor; [assumption | now apply IH].
    + intros H. inversion H as [|? ? Hc Hs]; subst.
      exists "", s. repeat split; [| now apply IH].
      apply lang_class. eauto.
Qed.

End RegexFacts.

Section FileNameFacts.

Import Regex.

(** The pattern of [validateFileName] accepts exactly the safe names. *)
Lemma fileNamePattern_spec (f : string) :
  test fileNamePattern f = true <-> safe_name f.
Proof.
  rewrite test_spec. unfold fileNamePattern, Plus, safe_name.
  rewrite lang_seq. split.
  - intros [s1 [s2 [-> [H1 H2]]]]. apply lang_lit in H2 as ->.
    apply lang_seq in H1 as [a [b [-> [Ha Hb]]]].
    apply lang_class in Ha as [c [-> Hc]]. apply lang_star_class in Hb.
    exists (String c b). repeat split; [discriminate |].
    simpl. now constructor.
  - intros [stem [-> [Hne Hall]]]. exists stem, ".zip". repeat split.
    + destruct stem as [|c b]; [congruence |]. simpl in Hall.
      inversion Hall as [|? ? Hc Hb]; subst.
      apply lang_seq. exists (String c ""), b. repeat split.
      * apply lang_class. eauto.
      * now apply lang_star_class.
    + now apply lang_lit.
Qed.

End FileNameFacts.

(** ** Facts about the file-name grammar *)

Lemma name_char_not_dot (c : ascii) : name_char c = true -> c <> "."%char.
Proof. intros H ->. discriminate H. Qed.

Lemma dots_app (a b : string) : dots (a ++ b) = (dots a + dots b)%nat.
Proof. unfold dots. now rewrite list_ascii_app, count_occ_app. Qed.

Lemma dots_name_chars (s : string) :
  Forall (fun c => name_char c = true) (list_ascii_of_string s) -> dots s = 0%nat.
Proof.
  unfold dots. intros H. apply count_occ_not_In. intros Hin.
  rewrite List.Forall_forall in H. now apply (name_char_not_dot _ (H _ Hin)).
Qed.

(** A safe name has exactly one dot, the one of its suffix. *)
Lemma safe_name_one_dot (f : string) : safe_name f -> dots f = 1%nat.
Proof.
  intros [stem [-> [_ H]]]. rewrite dots_app, (dots_name_chars _ H). reflexivity.
Qed.

(** So a name with a path-traversal sequence is not safe. *)
Lemma traversal_not_safe (f : string) : is_substring ".." f -> ~ safe_name f.
Proof.
  intros [pre [post ->]] H. apply safe_name_one_dot in H.
  rewrite !dots_app in H. change (dots "..") with 2%nat in H. lia.
Qed.

(** The names the specification lists, through the check. *)
Example grammar_examples :
  Regex.test fileNamePattern "theme-a/demo.zip" = true /\
  Regex.test fileNamePattern "package-install__woozio-main.zip" = true /\
  Regex.test fileNamePattern "../../etc/passwd" = false /\
  Regex.test fileNamePattern "a.txt" = false /\
  Regex.test fileNamePattern "pkg.zip;rm" = false /\
  Regex.test fileNamePattern "a/../b.zip" = false /\
  Regex.test fileNamePattern ".zip" = false.
Proof. repeat split. Qed.

(** ** Running the program

    What each function returns and what it leaves in the world. *)

Lemma bind_run {A B : Type} (m : M A) (k : A -> M B) (w w' : World) (a : A) :
  m w = (a, w') -> bind m k w = k a w'.
Proof. intros E. unfold bind. now rewrite E. Qed.

Lemma log_run (level : Level) (fields : list (string * option string))
    (msg : string) (w : World) :
  log level fields msg w = (tt, extend w [Log level fields msg]).
Proof. reflexivity. Qed.

Lemma later_zero (w : World) : later w 0 = w.
Proof. destruct w. unfold later. cbn. now rewrite Z.add_0_r. Qed.

Lemma emitted_events {A : Type} (m : M A) (w : World) (a : A) (es : list Event) :
  m w = (a, extend w es) -> emitted m w = es.
Proof.
  intros E. unfold emitted. rewrite E. simpl.
  rewrite List.skipn_app, List.skipn_all, Nat.sub_diag. reflexivity.
Qed.

Lemma emitted_nothing {A : Type} (m : M A) (w : World) (a : A) :
  m w = (a, w) -> emitted m w = [].
Proof. intros E. unfold emitted. rewrite E. apply List.skipn_all. Qed.

Lemma emitted_extend {A : Type} (m : M A) (w : World) (a : A) (es : list Event) (ms : Z) :
  m w = (a, later (extend w es) ms) -> emitted m w = es.
Proof.
  intros E. unfold emitted. rewrite E. simpl.
  rewrite List.skipn_app, List.skipn_all, Nat.sub_diag. reflexivity.
Qed.

Lemma validateFileName_run (f : string) (w : World) :
  validateFileName f w =
  (Regex.test fileNamePattern f, extend w [Call_validateFileName f]).
Proof. reflexivity. Qed.

Lemma validateLicense_run (env : Env) (l d f : string) (w : World) :
  validateLicense env l d f w =
  (verdict (checks env (now w) l d f), extend w (validator_events env l d f)).
Proof.
  unfold validateLicense, validator_events, verdict, checks, bind, emit, ret.
  cbn.
  destruct (get (licenses env) l) as [|lic|name]; cbn; try reflexivity.
  destruct (active lic); cbn; [|reflexivity].
  unfold isExpired, bind, emit, ret, Date_now, extend. cbn.
  rewrite <- app_assoc. cbn.
  destruct (Date.lt _ _); cbn; [reflexivity|].
  destruct (JS.some _ _); cbn; [|reflexivity].
  destruct (JS.array_includes _ _); reflexivity.
Qed.

Lemma generateSignedUrl_run (env : Env) (f : string) (w : World) :
  generateSignedUrl env f w =
  (getSignedUrl env (mkCommand (R2_BUCKET env) f) 600 (now w),
   later (extend w [Call_generateSignedUrl f;
                    Call_getSignedUrl (mkCommand (R2_BUCKET env) f) 600])
         (signing_ms env)).
Proof.
  unfold generateSignedUrl, await_getSignedUrl, bind, emit, ret, Date_now,
    elapse, later, extend. cbn. now rewrite <- app_assoc.
Qed.

Lemma complete_fields (b : Body) :
  complete b = true <->
  JS.truthy (license b) = true /\ JS.truthy (domain b) = true /\
  JS.truthy (file b) = true.
Proof. unfold complete. rewrite !andb_true_iff. tauto. Qed.

Lemma incomplete_guard (b : Body) :
  negb (JS.truthy (license b)) || negb (JS.truthy (domain b)) ||
  negb (JS.truthy (file b)) = negb (complete b).
Proof.
  unfold complete.
  destruct (JS.truthy (license b)), (JS.truthy (domain b)), (JS.truthy (file b));
    reflexivity.
Qed.

Lemma download_incomplete (env : Env) (req : Request) (w : World) :
  complete (body req) = false ->
  download env req w =
  (json 400 (Failure "Missing license, domain, or file"),
   extend w [received req; Log Warn [("ip", clientIp req)] "Missing required fields"]).
Proof.
  intros H. unfold download. rewrite incomplete_guard, H.
  unfold log, bind, emit, ret, extend, received, clientIp. cbn.
  now rewrite <- app_assoc.
Qed.


Section HandlerRuns.

Variable env : Env.
Variable req : Request.
Variable w : World.

Let l := JS.str (license (body req)).
Let d := JS.str (domain (body req)).
Let f := JS.str (file (body req)).
Let command := mkCommand (R2_BUCKET env) f.

Ltac run lem := erewrite bind_run by (apply lem).
Ltac tidy :=
  unfold ret, later, extend, received, clientIp; cbn [now trace hits];
  repeat (rewrite <- List.app_assoc); cbn [app]; try reflexivity.

Lemma download_bad_name :
  complete (body req) = true ->
  Regex.test fileNamePattern f = false ->
  download env req w =
  (json 400 (Failure "Invalid file name"),
   extend w [received req; Call_validateFileName f;
             Log Warn [("ip", clientIp req); ("file", file (body req))]
               "Invalid file name format"]).
Proof.
  intros Hc Hf. unfold download. rewrite incomplete_guard, Hc.
  run log_run. cbn [negb]. run validateFileName_run. fold f. rewrite Hf.
  cbn [negb]. run log_run. tidy.
Qed.

Lemma download_rejected (reason : string) :
  complete (body req) = true ->
  Regex.test fileNamePattern f = true ->
  first_failure (checks env (now w) l d f) = Some reason ->
  download env req w =
  (json 403 (Failure reason),
   extend w ([received req; Call_validateFileName f] ++
             validator_events env l d f ++
             [Log Warn [("ip", clientIp req); ("license", license (body req));
                        ("domain", domain (body req)); ("file", file (body req));
                        ("error", Some reason)]
                "License validation failed"])).
Proof.
  intros Hc Hf Hr. unfold download. rewrite incomplete_guard, Hc.
  run log_run. cbn [negb]. run validateFileName_run. fold f. rewrite Hf.
  cbn [negb]. run validateLicense_run. fold l d.
  unfold verdict. cbn [now extend]. rewrite Hr.
  cbn [ok error reject negb JS.str]. run log_run. tidy.
Qed.

Lemma download_threw (err : string) :
  complete (body req) = true ->
  Regex.test fileNamePattern f = true ->
  first_failure (checks env (now w) l d f) = None ->
  getSignedUrl env command 600 (now w) = Threw err ->
  download env req w =
  (json 500 (Failure "Failed to generate download URL. Please try again later."),
   later (extend w ([received req; Call_validateFileName f] ++
                    validator_events env l d f ++
                    [Call_generateSignedUrl f; Call_getSignedUrl command 600;
                     Log Error [("err", Some err); ("ip", clientIp req);
                                ("file", file (body req))]
                       "Failed to generate signed URL"]))
         (signing_ms env)).
Proof.
  intros Hc Hf Hr Hs. unfold download. rewrite incomplete_guard, Hc.
  run log_run. cbn [negb]. run validateFileName_run. fold f. rewrite Hf.
  cbn [negb]. run validateLicense_run. fold l d.
  unfold verdict. cbn [now extend]. rewrite Hr.
  cbn [ok error accept negb]. run generateSignedUrl_run. fold command.
  cbn [now extend]. rewrite Hs. run log_run. tidy.
Qed.

Lemma download_resolved (signedUrl : string) :
  complete (body req) = true ->
  Regex.test fileNamePattern f = true ->
  first_failure (checks env (now w) l d f) = None ->
  getSignedUrl env command 600 (now w) = Resolved signedUrl ->
  download env req w =
  let es := ([received req; Call_validateFileName f] ++
             validator_events env l d f ++
             [Call_generateSignedUrl f; Call_getSignedUrl command 600])%list in
  let succeeded :=
    Log Info [("ip", clientIp req); ("license", license (body req));
              ("domain", domain (body req)); ("file", file (body req))]
      "Signed URL generated successfully" in
  match Date.toISOString (Date.TimeClip (now w + signing_ms env + 600 * 1000)) with
  | Some iso =>
      (json 200 (Success "License and domain verified" (mkGrant signedUrl 600 iso f)),
       later (extend w (es ++ [succeeded])) (signing_ms env))
  | None =>
      (json 500 (Failure "Failed to generate download URL. Please try again later."),
       later (extend w (es ++ [succeeded;
                Log Error [("err", Some "RangeError: Invalid time value");
                           ("ip", clientIp req); ("file", file (body req))]
                  "Failed to generate signed URL"]))
             (signing_ms env))
  end.
Proof.
  intros Hc Hf Hr Hs. unfold download. rewrite incomplete_guard, Hc.
  run log_run. cbn [negb]. run validateFileName_run. fold f. rewrite Hf.
  cbn [negb]. run validateLicense_run. fold l d.
  unfold verdict. cbn [now extend]. rewrite Hr.
  cbn [ok error accept negb]. run generateSignedUrl_run. fold command.
  cbn [now extend]. rewrite Hs. run log_run.
  unfold Date_now at 1. unfold bind at 1. cbn [now later extend].
  cbv zeta.
  destruct (Date.toISOString _) as [iso|].
  - tidy.
  - run log_run. tidy.
Qed.

End HandlerRuns.

Lemma validator_events_no_limiter (env : Env) (l d f : string) :
  existsb is_limiter_call (validator_events env l d f) = false.
Proof.
  unfold validator_events.
  destruct (get (licenses env) l) as [|lic|name]; [reflexivity | | reflexivity].
  now destruct (active lic).
Qed.

(** Every run of the handler: one of its five answers, a trace extended by
    events none of which is a call of the limiter, a clock advanced by the
    awaited call at most, and the limiter's store as it was. *)
Lemma download_runs (env : Env) (req : Request) (w : World) :
  exists r es ms,
    download env req w = (r, later (extend w es) ms) /\
    handler_answer r /\
    existsb is_limiter_call es = false.
Proof.
  unfold handler_answer.
  destruct (complete (body req)) eqn:Hc.
  2:{ eexists _, _, 0. rewrite later_zero.
      split; [apply (download_incomplete env req w Hc) |]. split; [auto | reflexivity]. }
  destruct (Regex.test fileNamePattern (JS.str (file (body req)))) eqn:Ht.
  2:{ eexists _, _, 0. rewrite later_zero.
      split; [apply (download_bad_name env req w Hc Ht) |]. split; [auto | reflexivity]. }
  destruct (first_failure (checks env (now w) (JS.str (license (body req)))
                             (JS.str (domain (body req))) (JS.str (file (body req)))))
    as [reason|] eqn:Hr.
  { eexists _, _, 0. rewrite later_zero.
    split; [apply (download_rejected env req w reason Hc Ht Hr) |].
    split; [eauto 6 |].
    rewrite !existsb_app, validator_events_no_limiter. reflexivity. }
  destruct (getSignedUrl env (mkCommand (R2_BUCKET env) (JS.str (file (body req))))
              600 (now w)) as [signedUrl|err] eqn:Hs.
  - pose proof (download_resolved env req w signedUrl Hc Ht Hr Hs) as Hrun.
    cbv zeta in Hrun.
    destruct (Date.toISOString _) as [iso|]; eexists _, _, _;
      (split; [exact Hrun |]); (split; [eauto 8 |]);
      rewrite !existsb_app, validator_events_no_limiter; reflexivity.
  - eexists _, _, _.
    split; [apply (download_threw env req w err Hc Ht Hr Hs) |].
    split; [auto 6 |].
    rewrite !existsb_app, validator_events_no_limiter. reflexivity.
Qed.

Lemma handler_answer_status (r : Response) :
  handler_answer r -> In (status r) [200; 400; 403; 500].
Proof.
  unfold handler_answer.
  intros [-> | [-> | [[reason ->] | [-> | [grant ->]]]]]; simpl; auto.
Qed.

(** Whatever made the handler answer 500, the payload is the generic one. *)
Lemma every_500_is_generic (env : Env) (req : Request) (w : World) :
  status (fst (download env req w)) = 500 ->
  payload (fst (download env req w)) =
  Failure "Failed to generate download URL. Please try again later.".
Proof.
  destruct (download_runs env req w) as [r [es [ms [-> [Hr _]]]]]. cbn [fst].
  destruct Hr as [-> | [-> | [[reason ->] | [-> | [grant ->]]]]]; simpl;
    intros H; first [discriminate H | reflexivity].
Qed.

(** ** The shape checks of the handler *)

Lemma falsy_incomplete (b : Body) :
  JS.truthy (license b) = false \/ JS.truthy (domain b) = false \/
  JS.truthy (file b) = false ->
  complete b = false.
Proof.
  unfold complete. intros [H | [H | H]]; rewrite H;
    rewrite ?andb_false_r; reflexivity.
Qed.

Lemma present_complete (b : Body) (l d f : string) :
  license b = Some l -> l <> "" -> domain b = Some d -> d <> "" ->
  file b = Some f -> f <> "" -> complete b = true.
Proof.
  intros El Hl Ed Hd Ef Hf. apply complete_fields.
  rewrite El, Ed, Ef. repeat split; apply truthy_spec; eauto.
Qed.

(** A request with a falsy field is answered by the presence check alone. *)
Lemma incomplete_answer (env : Env) (req : Request) (w : World) :
  complete (body req) = false ->
  fst (download env req w) = json 400 (Failure "Missing license, domain, or file") /\
  existsb is_grammar_call (emitted (download env req) w) = false /\
  existsb is_validator_call (emitted (download env req) w) = false /\
  (forall env', download env' req w = download env req w).
Proof.
  intros H. repeat split.
  - now rewrite (download_incomplete env req w H).
  - now rewrite (emitted_events _ _ _ _ (download_incomplete env req w H)).
  - now rewrite (emitted_events _ _ _ _ (download_incomplete env req w H)).
  - intros env'. now rewrite !download_incomplete.
Qed.

Lemma truthy_absent_if_empty (v : option string) :
  JS.truthy (absent_if_empty v) = JS.truthy v.
Proof. destruct v as [[|c s]|]; reflexivity. Qed.

Lemma absent_if_empty_truthy (v : option string) :
  JS.truthy v = true -> absent_if_empty v = v.
Proof. destruct v as [[|c s]|]; [discriminate | reflexivity | reflexivity]. Qed.

Lemma complete_without_empty (b : Body) :
  complete (without_empty b) = complete b.
Proof. unfold complete, without_empty. cbn. now rewrite !truthy_absent_if_empty. Qed.

Lemma without_empty_complete (b : Body) :
  complete b = true -> without_empty b = b.
Proof.
  intros H. apply complete_fields in H as [Hl [Hd Hf]].
  destruct b as [l d f]. unfold without_empty. cbn in *.
  now rewrite !absent_if_empty_truthy.
Qed.

(** The answer never tells an empty field from a missing one. *)
Lemma empty_as_absent (env : Env) (req : Request) (w : World) :
  fst (download env (with_body req (without_empty (body req))) w) =
  fst (download env req w).
Proof.
  destruct (complete (body req)) eqn:H.
  - rewrite (without_empty_complete _ H). now destruct req.
  - rewrite (download_incomplete env req w H).
    rewrite download_incomplete; [reflexivity |].
    cbn. now rewrite complete_without_empty.
Qed.

(** C9: a request in which [license], [domain] or [file] is missing is
    answered 400 with the error "Missing license, domain, or file"; the
    check comes before the file-name grammar and before the Validator:
    neither is entered, and the answer does not depend on the license table
    or on anything else the process was given. *)
Theorem missing_field_rejected_first (env : Env) (req : Request) (w : World) :
  license (body req) = None \/ domain (body req) = None \/ file (body req) = None ->
  fst (download env req w) = json 400 (Failure "Missing license, domain, or file") /\
  existsb is_grammar_call (emitted (download env req) w) = false /\
  existsb is_validator_call (emitted (download env req) w) = false /\
  (forall env', download env' req w = download env req w).
Proof.
  intros H. apply incomplete_answer, falsy_incomplete.
  destruct H as [H | [H | H]]; rewrite H; auto.
Qed.

Lemma missing_field_rejected_first_witness :
  (license (body no_domain) = None \/ domain (body no_domain) = None \/
   file (body no_domain) = None) /\
  fst (download sample_env no_domain sample_world) =
    json 400 (Failure "Missing license, domain, or file") /\
  existsb is_grammar_call (emitted (download sample_env no_domain) sample_world) = false /\
  existsb is_validator_call (emitted (download sample_env no_domain) sample_world) = false /\
  (forall env', download env' no_domain sample_world =
                download sample_env no_domain sample_world).
Proof.
  assert (H : license (body no_domain) = None \/ domain (body no_domain) = None \/
              file (body no_domain) = None) by (right; left; reflexivity).
  split; [exact H |].
  exact (missing_field_rejected_first sample_env no_domain sample_world H).
Defined.

(** C10: the presence check is a truthiness test, so a request that gives
    the empty string for [license], [domain] or [file] is answered 400 with
    "Missing license, domain, or file", exactly as the same request with
    the empty fields left out; the Validator is not entered and the license
    table plays no part in the answer. *)
Theorem empty_field_is_missing (env : Env) (req : Request) (w : World) :
  license (body req) = Some "" \/ domain (body req) = Some "" \/
  file (body req) = Some "" ->
  fst (download env req w) = json 400 (Failure "Missing license, domain, or file") /\
  fst (download env req w) =
    fst (download env (with_body req (without_empty (body req))) w) /\
  existsb is_validator_call (emitted (download env req) w) = false /\
  (forall env', download env' req w = download env req w).
Proof.
  intros H.
  assert (Hc : complete (body req) = false).
  { apply falsy_incomplete. destruct H as [H | [H | H]]; rewrite H; auto. }
  destruct (incomplete_answer env req w Hc) as [H1 [_ [H3 H4]]].
  repeat split; try assumption. symmetry. apply empty_as_absent.
Qed.

Lemma empty_field_is_missing_witness :
  (license (body empty_license) = Some "" \/ domain (body empty_license) = Some "" \/
   file (body empty_license) = Some "") /\
  fst (download sample_env empty_license sample_world) =
    json 400 (Failure "Missing license, domain, or file") /\
  fst (download sample_env empty_license sample_world) =
    fst (download sample_env
           (with_body empty_license (without_empty (body empty_license)))
           sample_world) /\
  existsb is_validator_call (emitted (download sample_env empty_license) sample_world)
    = false /\
  (forall env', download env' empty_license sample_world =
                download sample_env empty_license sample_world).
Proof.
  assert (H : license (body empty_license) = Some "" \/
              domain (body empty_license) = Some "" \/
              file (body empty_license) = Some "") by (left; reflexivity).
  split; [exact H |].
  exact (empty_field_is_missing sample_env empty_license sample_world H).
Defined.

(** ** The file-name check *)

Lemma str_some (v : option string) (s : string) : v = Some s -> JS.str v = s.
Proof. now intros ->. Qed.

(** C3: on a request with all three fields present (given and not empty,
    so that the presence check is passed), a [file] that is not
    one or more word characters, hyphens, underscores and slashes followed
    by [.zip] is answered 400 with the error "Invalid file name", and the
    Validator is not entered: the answer is the same whatever the license
    table holds.  A name with the sequence [..] is such a file; and a name
    the check accepts has no dot but the one of its final [.zip]. *)
Theorem unsafe_file_name_rejected (env : Env) (req : Request) (w : World)
    (l d f : string) :
  license (body req) = Some l -> l <> "" ->
  domain (body req) = Some d -> d <> "" ->
  file (body req) = Some f -> f <> "" ->
  (~ safe_name f ->
   fst (download env req w) = json 400 (Failure "Invalid file name") /\
   existsb is_validator_call (emitted (download env req) w) = false /\
   (forall env', download env' req w = download env req w)) /\
  (is_substring ".." f -> ~ safe_name f) /\
  (fst (validateFileName f w) = true ->
   exists stem, f = stem ++ ".zip" /\ dots stem = 0%nat).
Proof.
  intros El Hl Ed Hd Ef Hf.
  pose proof (present_complete _ _ _ _ El Hl Ed Hd Ef Hf) as Hc.
  split; [| split].
  - intros Hbad.
    assert (Ht : Regex.test fileNamePattern (JS.str (file (body req))) = false).
    { rewrite (str_some _ _ Ef). apply not_true_is_false.
      intros Ht. apply Hbad. now apply fileNamePattern_spec. }
    repeat split.
    + now rewrite (download_bad_name env req w Hc Ht).
    + now rewrite (emitted_events _ _ _ _ (download_bad_name env req w Hc Ht)).
    + intros env'. now rewrite !download_bad_name.
  - apply traversal_not_safe.
  - rewrite validateFileName_run. cbn [fst]. intros Ht.
    apply fileNamePattern_spec in Ht as [stem [E [_ Hall]]].
    exists stem. split; [assumption | now apply dots_name_chars].
Qed.

Lemma unsafe_file_name_rejected_witness :
  license (body traversal) = Some "ABC-123-XYZ" /\ "ABC-123-XYZ" <> "" /\
  domain (body traversal) = Some "localhost" /\ "localhost" <> "" /\
  file (body traversal) = Some "../../etc/passwd" /\ "../../etc/passwd" <> "" /\
  is_substring ".." "../../etc/passwd" /\
  ~ safe_name "../../etc/passwd" /\
  fst (download sample_env traversal sample_world) =
    json 400 (Failure "Invalid file name") /\
  existsb is_validator_call (emitted (download sample_env traversal) sample_world)
    = false /\
  file (body valid) = Some "theme-a/demo.zip" /\
  fst (validateFileName "theme-a/demo.zip" sample_world) = true /\
  exists stem, "theme-a/demo.zip" = stem ++ ".zip" /\ dots stem = 0%nat.
Proof.
  assert (Hsub : is_substring ".." "../../etc/passwd")
    by (exists "", "/../etc/passwd"; reflexivity).
  pose proof (unsafe_file_name_rejected sample_env traversal sample_world
                "ABC-123-XYZ" "localhost" "../../etc/passwd"
                eq_refl ltac:(discriminate) eq_refl ltac:(discriminate)
                eq_refl ltac:(discriminate)) as [Hbad [Htrav _]].
  pose proof (unsafe_file_name_rejected sample_env valid sample_world
                "ABC-123-XYZ" "demo.yourtheme.com" "theme-a/demo.zip"
                eq_refl ltac:(discriminate) eq_refl ltac:(discriminate)
                eq_refl ltac:(discriminate)) as [_ [_ Hstem]].
  do 6 (split; [first [reflexivity | discriminate] |]).
  split; [exact Hsub |]. split; [exact (Htrav Hsub) |].
  split; [exact (proj1 (Hbad (Htrav Hsub))) |].
  split; [exact (proj1 (proj2 (Hbad (Htrav Hsub)))) |].
  split; [reflexivity |]. split; [reflexivity |].
  exact (Hstem eq_refl).
Defined.

(** ** The Validator *)

Lemma get_own (o : gmap string LicenseRecord) (key : string) (lic : LicenseRecord) :
  o !! key = Some lic -> get o key = Own lic.
Proof. unfold get. now intros ->. Qed.

Lemma validateLicense_verdict (env : Env) (l d f : string) (w : World) :
  fst (validateLicense env l d f w) = verdict (checks env (now w) l d f).
Proof. now rewrite validateLicense_run. Qed.

Lemma validateLicense_events (env : Env) (l d f : string) (w : World) :
  emitted (validateLicense env l d f) w = validator_events env l d f.
Proof. apply (emitted_events _ _ _ _ (validateLicense_run env l d f w)). Qed.

(** Short-circuit: after checks that pass, a failing check decides, whatever
    follows it. *)
Lemma first_failure_decides (passed later : list (bool * string)) (reason : string) :
  forallb fst passed = true ->
  first_failure (passed ++ (false, reason) :: later) = Some reason.
Proof.
  induction passed as [|[b r] passed IH]; simpl; [reflexivity |].
  intros H. apply andb_true_iff in H as [-> H]. now apply IH.
Qed.

Lemma first_failure_none (cs : list (bool * string)) :
  first_failure cs = None <-> forallb fst cs = true.
Proof.
  induction cs as [|[b r] cs IH]; simpl; [tauto |].
  destruct b; simpl; [exact IH | split; discriminate].
Qed.

Lemma verdict_ok (cs : list (bool * string)) :
  ok (verdict cs) = true <-> first_failure cs = None.
Proof.
  unfold verdict. destruct (first_failure cs); simpl; split;
    intros H; congruence.
Qed.

Lemma checks_reasons (env : Env) (t : Z) (l d f : string) :
  map snd (checks env t l d f) =
  [ "License not found"; "License inactive"; "License expired";
    "Domain not allowed"; "File not permitted for this license" ].
Proof. reflexivity. Qed.

(** Where the first failing check is one of the first two, neither the
    clock, nor the domain, nor the file is looked at. *)
Lemma early_failure_independent (env : Env) (l d f : string) (w : World)
    (passed later : list (bool * string)) (reason : string) :
  checks env (now w) l d f = (passed ++ (false, reason) :: later)%list ->
  forallb fst passed = true ->
  (length passed < 2)%nat ->
  forall d' f' w',
    fst (validateLicense env l d' f' w') = reject reason /\
    emitted (validateLicense env l d' f') w' = [Call_validateLicense l d' f'].
Proof.
  intros E Hp Hlen d' f' w'.
  rewrite validateLicense_verdict, validateLicense_events.
  unfold checks, validator_events, verdict in *.
  destruct passed as [|[b1 r1] [|[b2 r2] passed]]; simpl in Hlen; [| | lia];
    simpl in E, Hp; injection E as E; intros; subst;
    destruct (get (licenses env) l) as [|lic|name]; simpl in *;
    try discriminate; try (split; reflexivity).
  match goal with H : active _ = false |- _ => rewrite H end. now split.
Qed.

(** Where the expiry check is the first to fail, neither the domain nor the
    file is looked at. *)
Lemma expiry_failure_independent (env : Env) (l d f : string) (w : World)
    (passed later : list (bool * string)) (reason : string) :
  checks env (now w) l d f = (passed ++ (false, reason) :: later)%list ->
  forallb fst passed = true ->
  length passed = 2%nat ->
  forall d' f', fst (validateLicense env l d' f' w) = reject reason.
Proof.
  intros E Hp Hlen d' f'. rewrite validateLicense_verdict.
  unfold checks, verdict in *.
  destruct passed as [|[b1 r1] [|[b2 r2] [|[b3 r3] passed]]]; simpl in Hlen;
    try discriminate.
  simpl in E, Hp. injection E as E1 E2 E3 E4 E5 E6. subst.
  destruct (get (licenses env) l) as [|lic|name]; simpl in *; try discriminate.
  rewrite andb_true_r in Hp. rewrite Hp. simpl.
  apply negb_false_iff in E5. now rewrite E5.
Qed.

(** Where the domain check is the first to fail, the file is not looked at. *)
Lemma domain_failure_independent (env : Env) (l d f : string) (w : World)
    (passed later : list (bool * string)) (reason : string) :
  checks env (now w) l d f = (passed ++ (false, reason) :: later)%list ->
  forallb fst passed = true ->
  length passed = 3%nat ->
  forall f', fst (validateLicense env l d f' w) = reject reason.
Proof.
  intros E Hp Hlen f'. rewrite validateLicense_verdict.
  unfold checks, verdict in *.
  destruct passed as [|[b1 r1] [|[b2 r2] [|[b3 r3] [|[b4 r4] passed]]]];
    simpl in Hlen; try discriminate.
  simpl in E, Hp. injection E as E1 E2 E3 E4 E5 E6 E7 E8. subst.
  destruct (get (licenses env) l) as [|lic|name]; simpl in *; try discriminate.
  rewrite andb_true_r in Hp. apply andb_true_iff in Hp as [Ha He].
  now rewrite Ha, He, E7.
Qed.


Lemma validator_events_no_signer (env : Env) (l d f : string) :
  existsb is_signer_call (validator_events env l d f) = false.
Proof.
  unfold validator_events.
  destruct (get (licenses env) l) as [|lic|name]; [reflexivity | | reflexivity].
  now destruct (active lic).
Qed.

(** C4: the Validator applies its five checks in the order not-found,
    inactive, expired, domain-not-allowed, file-not-permitted.  For every
    triple, when the checks before one pass and that one fails, the
    Validator returns its reason; the handler, on a request that carries the
    triple and passes the shape checks, answers 403 with that very reason
    and does not call the signer.  Nothing a later check looks at matters: a
    failure of one of the first two checks is independent of the clock, the
    domain and the file (and [isExpired] is not entered), a failure of the
    expiry check of the domain and the file, a failure of the domain check
    of the file. *)
Theorem checks_in_order_first_failure (env : Env) (w : World) (l d f : string)
    (passed later : list (bool * string)) (reason : string) :
  checks env (now w) l d f = (passed ++ (false, reason) :: later)%list ->
  forallb fst passed = true ->
  map snd (checks env (now w) l d f) =
    [ "License not found"; "License inactive"; "License expired";
      "Domain not allowed"; "File not permitted for this license" ] /\
  fst (validateLicense env l d f w) = reject reason /\
  (forall req,
     license (body req) = Some l -> l <> "" ->
     domain (body req) = Some d -> d <> "" ->
     file (body req) = Some f -> safe_name f ->
     fst (download env req w) = json 403 (Failure reason) /\
     existsb is_signer_call (emitted (download env req) w) = false) /\
  ((length passed < 2)%nat ->
   forall d' f' w',
     fst (validateLicense env l d' f' w') = reject reason /\
     emitted (validateLicense env l d' f') w' = [Call_validateLicense l d' f']) /\
  (length passed = 2%nat ->
   forall d' f', fst (validateLicense env l d' f' w) = reject reason) /\
  (length passed = 3%nat ->
   forall f', fst (validateLicense env l d f' w) = reject reason).
Proof.
  intros E Hp.
  assert (Hr : first_failure (checks env (now w) l d f) = Some reason).
  { rewrite E. now apply first_failure_decides. }
  split; [apply checks_reasons |].
  split; [| split; [| split; [| split]]].
  - rewrite validateLicense_verdict. unfold verdict. now rewrite Hr.
  - intros req El Hl Ed Hd Ef Hsafe.
    assert (Hf : f <> "").
    { destruct Hsafe as [stem [-> [Hne _]]].
      destruct stem; [congruence | discriminate]. }
    pose proof (present_complete _ _ _ _ El Hl Ed Hd Ef Hf) as Hc.
    assert (Ht : Regex.test fileNamePattern (JS.str (file (body req))) = true).
    { rewrite (str_some _ _ Ef). now apply fileNamePattern_spec. }
    assert (Hrun := download_rejected env req w reason Hc Ht).
    rewrite (str_some _ _ El), (str_some _ _ Ed), (str_some _ _ Ef) in Hrun.
    specialize (Hrun Hr). split; [now rewrite Hrun |].
    rewrite (emitted_events _ _ _ _ Hrun), !existsb_app, validator_events_no_signer.
    reflexivity.
  - intros Hlen. now apply (early_failure_independent env l d f w passed later).
  - intros Hlen. now apply (expiry_failure_independent env l d f w passed later).
  - intros Hlen. now apply (domain_failure_independent env l d f w passed later).
Qed.

Lemma safe_name_sample : safe_name "theme-a/demo.zip".
Proof. apply fileNamePattern_spec. reflexivity. Qed.

Lemma checks_in_order_first_failure_witness :
  (* the domain check is the first to fail *)
  checks sample_env (now sample_world) "ABC-123-XYZ" "evil.example" "theme-a/demo.zip" =
    ([(true, "License not found"); (true, "License inactive"); (true, "License expired")]
     ++ (false, "Domain not allowed")
     :: [(true, "File not permitted for this license")])%list /\
  forallb fst [(true, "License not found"); (true, "License inactive");
               (true, "License expired")] = true /\
  fst (validateLicense sample_env "ABC-123-XYZ" "evil.example" "theme-a/demo.zip"
         sample_world) = reject "Domain not allowed" /\
  fst (download sample_env wrong_domain sample_world) =
    json 403 (Failure "Domain not allowed") /\
  existsb is_signer_call (emitted (download sample_env wrong_domain) sample_world)
    = false /\
  (forall f',
     fst (validateLicense sample_env "ABC-123-XYZ" "evil.example" f' sample_world) =
     reject "Domain not allowed") /\
  (* the expiry check is the first to fail, a millisecond after the expiry *)
  checks sample_env (now (boot 1767225600001)) "TEST-999-KEY" "localhost"
    "package-install__woozio-main.zip" =
    ([(true, "License not found"); (true, "License inactive")]
     ++ (false, "License expired")
     :: [(true, "Domain not allowed"); (true, "File not permitted for this license")])%list /\
  (forall d' f',
     fst (validateLicense sample_env "TEST-999-KEY" d' f' (boot 1767225600001)) =
     reject "License expired") /\
  (* the first check fails *)
  checks sample_env (now sample_world) "NO-SUCH-KEY" "localhost" "theme-a/demo.zip" =
    ([] ++ (false, "License not found")
     :: [(false, "License inactive"); (true, "License expired");
         (false, "Domain not allowed");
         (false, "File not permitted for this license")])%list /\
  (forall d' f' w',
     fst (validateLicense sample_env "NO-SUCH-KEY" d' f' w') = reject "License not found" /\
     emitted (validateLicense sample_env "NO-SUCH-KEY" d' f') w' =
       [Call_validateLicense "NO-SUCH-KEY" d' f']).
Proof.
  pose proof (checks_in_order_first_failure sample_env sample_world
                "ABC-123-XYZ" "evil.example" "theme-a/demo.zip"
                [(true, "License not found"); (true, "License inactive");
                 (true, "License expired")]
                [(true, "File not permitted for this license")]
                "Domain not allowed" eq_refl eq_refl)
    as [_ [Hv [Hh [_ [_ Hfile]]]]].
  pose proof (Hh wrong_domain eq_refl ltac:(discriminate) eq_refl
                ltac:(discriminate) eq_refl safe_name_sample) as [H403 Hsigner].
  pose proof (checks_in_order_first_failure sample_env (boot 1767225600001)
                "TEST-999-KEY" "localhost" "package-install__woozio-main.zip"
                [(true, "License not found"); (true, "License inactive")]
                [(true, "Domain not allowed");
                 (true, "File not permitted for this license")]
                "License expired" eq_refl eq_refl)
    as [_ [_ [_ [_ [Hexpiry _]]]]].
  pose proof (checks_in_order_first_failure sample_env sample_world
                "NO-SUCH-KEY" "localhost" "theme-a/demo.zip" []
                [(false, "License inactive"); (true, "License expired");
                 (false, "Domain not allowed");
                 (false, "File not permitted for this license")]
                "License not found" eq_refl eq_refl)
    as [_ [_ [_ [Hearly _]]]].
  split; [reflexivity |]. split; [reflexivity |].
  split; [exact Hv |]. split; [exact H403 |]. split; [exact Hsigner |].
  split; [exact (Hfile eq_refl) |].
  split; [reflexivity |]. split; [exact (Hexpiry eq_refl) |].
  split; [reflexivity |].
  apply Hearly. cbn. lia.
Defined.

Lemma some_includes_spec (allowedDomains : list string) (d : string) :
  JS.some allowedDomains (fun allowed => JS.includes d allowed) = true <->
  exists allowed, In allowed allowedDomains /\ is_substring allowed d.
Proof.
  unfold JS.some. rewrite existsb_exists.
  split; intros [a [Hin H]]; exists a; (split; [assumption | now apply includes_spec]).
Qed.

(** The verdict on a key that resolves to an active record. *)
Lemma validateLicense_active (env : Env) (l d f : string) (w : World)
    (lic : LicenseRecord) :
  licenses env !! l = Some lic -> active lic = true ->
  fst (validateLicense env l d f w) =
  if Date.lt (Date_parse env (expires lic)) (Some (now w))
  then reject "License expired"
  else if JS.some (domains lic) (fun allowed => JS.includes d allowed)
  then if JS.array_includes (files lic) f
       then accept
       else reject "File not permitted for this license"
  else reject "Domain not allowed".
Proof.
  intros Hl Ha. rewrite validateLicense_verdict. unfold verdict, checks.
  rewrite (get_own _ _ _ Hl). simpl. rewrite Ha.
  destruct (Date.lt _ _); [reflexivity |]. simpl.
  destruct (JS.some _ _); [| reflexivity].
  now destruct (JS.array_includes _ _).
Qed.

(** C2: on a request that reaches the domain check (the key resolves to an
    active record that has not expired), the domain passes exactly when some
    entry of the record's [domains] occurs in the requested domain (the
    entry inside the domain, not the domain inside the entry); otherwise the
    Validator rejects with "Domain not allowed".  When it passes, the file
    check alone decides. *)
Theorem domain_allowed_iff_contains_entry (env : Env) (l d f : string) (w : World)
    (lic : LicenseRecord) :
  licenses env !! l = Some lic -> active lic = true ->
  Date.lt (Date_parse env (expires lic)) (Some (now w)) = false ->
  (fst (validateLicense env l d f w) = reject "Domain not allowed" <->
   ~ exists allowed, In allowed (domains lic) /\ is_substring allowed d) /\
  ((exists allowed, In allowed (domains lic) /\ is_substring allowed d) ->
   fst (validateLicense env l d f w) =
   if JS.array_includes (files lic) f
   then accept
   else reject "File not permitted for this license").
Proof.
  intros Hl Ha He. rewrite (validateLicense_active env l d f w lic Hl Ha), He.
  destruct (JS.some _ _) eqn:Hs.
  - apply some_includes_spec in Hs. split; [| reflexivity]. split.
    + destruct (JS.array_includes _ _); discriminate.
    + intros Hn. contradiction.
  - split.
    + split; [| reflexivity]. intros _ Hex.
      apply some_includes_spec in Hex. congruence.
    + intros Hex. apply some_includes_spec in Hex. congruence.
Qed.

Lemma domain_allowed_iff_contains_entry_witness :
  licenses sample_env !! "TEST-999-KEY" =
    Some (mkLicense true "2026-01-01" ["localhost"] ["package-install__woozio-main.zip"]) /\
  active (mkLicense true "2026-01-01" ["localhost"] ["package-install__woozio-main.zip"])
    = true /\
  Date.lt (Date_parse sample_env
             (expires (mkLicense true "2026-01-01" ["localhost"]
                         ["package-install__woozio-main.zip"])))
          (Some (now sample_world)) = false /\
  (* an entry inside the domain: accepted *)
  (exists allowed,
      In allowed (domains (mkLicense true "2026-01-01" ["localhost"]
                             ["package-install__woozio-main.zip"])) /\
      is_substring allowed "localhost.attacker.example") /\
  fst (validateLicense sample_env "TEST-999-KEY" "localhost.attacker.example"
         "package-install__woozio-main.zip" sample_world) = accept /\
  (* the domain inside an entry, and no entry inside the domain: rejected *)
  ~ (exists allowed,
        In allowed (domains (mkLicense true "2026-01-01" ["localhost"]
                               ["package-install__woozio-main.zip"])) /\
        is_substring allowed "local") /\
  fst (validateLicense sample_env "TEST-999-KEY" "local"
         "package-install__woozio-main.zip" sample_world) = reject "Domain not allowed".
Proof.
  assert (Hex : exists allowed,
             In allowed (domains (mkLicense true "2026-01-01" ["localhost"]
                                    ["package-install__woozio-main.zip"])) /\
             is_substring allowed "localhost.attacker.example").
  { exists "localhost". split; [now left |].
    exists "", ".attacker.example". reflexivity. }
  assert (Hno : ~ exists allowed,
             In allowed (domains (mkLicense true "2026-01-01" ["localhost"]
                                    ["package-install__woozio-main.zip"])) /\
             is_substring allowed "local").
  { intros [allowed [[<- | []] Hsub]]. apply includes_spec in Hsub. discriminate Hsub. }
  split; [reflexivity |]. split; [reflexivity |]. split; [reflexivity |].
  split; [exact Hex |]. split.
  - exact (proj2 (domain_allowed_iff_contains_entry sample_env "TEST-999-KEY"
                    "localhost.attacker.example" "package-install__woozio-main.zip"
                    sample_world _ eq_refl eq_refl eq_refl) Hex).
  - split; [exact Hno |].
    exact (proj2 (proj1 (domain_allowed_iff_contains_entry sample_env "TEST-999-KEY"
                           "local" "package-install__woozio-main.zip"
                           sample_world _ eq_refl eq_refl eq_refl)) Hno).
Defined.

(** The other direction does not pass: a domain that is part of an entry. *)
Example domain_inside_entry_rejected :
  fst (validateLicense sample_env "ABC-123-XYZ" "woozio" "theme-a/demo.zip"
         sample_world) = reject "Domain not allowed".
Proof. reflexivity. Qed.

(** C6: for a key that resolves to an active record, the Validator reports
    "License expired" exactly when the record's [expires], parsed into a
    time value, is strictly before the current time (now > expiresAt); when
    the parsed expiry is not in the past the expiry check passes and the
    domain and file checks decide. *)
Theorem expired_iff_now_after_expiry (env : Env) (l d f : string) (w : World)
    (lic : LicenseRecord) :
  licenses env !! l = Some lic -> active lic = true ->
  (fst (validateLicense env l d f w) = reject "License expired" <->
   exists t, Date_parse env (expires lic) = Some t /\ now w > t) /\
  (forall t, Date_parse env (expires lic) = Some t -> now w <= t ->
   fst (validateLicense env l d f w) =
   verdict [ (JS.some (domains lic) (fun allowed => JS.includes d allowed),
              "Domain not allowed");
             (JS.array_includes (files lic) f,
              "File not permitted for this license") ]).
Proof.
  intros Hl Ha. rewrite (validateLicense_active env l d f w lic Hl Ha).
  unfold Date.lt. destruct (Date_parse env (expires lic)) as [t|].
  - destruct (Z.ltb_spec t (now w)) as [Hlt | Hge].
    + split.
      * split; [intros _; exists t; split; [reflexivity | lia] | reflexivity].
      * intros t' E Hle. injection E as <-. lia.
    + split.
      * split.
        -- destruct (JS.some _ _); [destruct (JS.array_includes _ _) |]; discriminate.
        -- intros [t' [E Hgt]]. injection E as <-. lia.
      * intros _ _ _. unfold verdict. simpl.
        destruct (JS.some _ _); [| reflexivity].
        now destruct (JS.array_includes _ _).
  - split.
    + split.
      * destruct (JS.some _ _); [destruct (JS.array_includes _ _) |]; discriminate.
      * intros [t [E _]]. discriminate.
    + intros t E. discriminate.
Qed.

Lemma expired_iff_now_after_expiry_witness :
  licenses sample_env !! "TEST-999-KEY" =
    Some (mkLicense true "2026-01-01" ["localhost"] ["package-install__woozio-main.zip"]) /\
  active (mkLicense true "2026-01-01" ["localhost"] ["package-install__woozio-main.zip"])
    = true /\
  (exists t,
      Date_parse sample_env
        (expires (mkLicense true "2026-01-01" ["localhost"]
                    ["package-install__woozio-main.zip"])) = Some t /\
      now (boot 1767225600001) > t) /\
  fst (validateLicense sample_env "TEST-999-KEY" "localhost"
         "package-install__woozio-main.zip" (boot 1767225600001)) =
    reject "License expired" /\
  Date_parse sample_env
    (expires (mkLicense true "2026-01-01" ["localhost"]
                ["package-install__woozio-main.zip"])) = Some 1767225600000 /\
  now (boot 1767225600000) <= 1767225600000 /\
  fst (validateLicense sample_env "TEST-999-KEY" "localhost"
         "package-install__woozio-main.zip" (boot 1767225600000)) =
    verdict [ (JS.some ["localhost"] (fun allowed => JS.includes "localhost" allowed),
               "Domain not allowed");
              (JS.array_includes ["package-install__woozio-main.zip"]
                 "package-install__woozio-main.zip",
               "File not permitted for this license") ].
Proof.
  assert (Hex : exists t,
             Date_parse sample_env
               (expires (mkLicense true "2026-01-01" ["localhost"]
                           ["package-install__woozio-main.zip"])) = Some t /\
             now (boot 1767225600001) > t).
  { exists 1767225600000. split; reflexivity. }
  assert (Hle : now (boot 1767225600000) <= 1767225600000) by (cbn; lia).
  split; [reflexivity |]. split; [reflexivity |]. split; [exact Hex |].
  split.
  - exact (proj2 (proj1 (expired_iff_now_after_expiry sample_env "TEST-999-KEY"
                           "localhost" "package-install__woozio-main.zip"
                           (boot 1767225600001) _ eq_refl eq_refl)) Hex).
  - split; [reflexivity |]. split; [exact Hle |].
    exact (proj2 (expired_iff_now_after_expiry sample_env "TEST-999-KEY"
                    "localhost" "package-install__woozio-main.zip"
                    (boot 1767225600000) _ eq_refl eq_refl)
             1767225600000 eq_refl Hle).
Defined.

(** At the very instant of expiry the license still passes. *)
Example not_expired_at_the_boundary :
  fst (validateLicense sample_env "TEST-999-KEY" "localhost"
         "package-install__woozio-main.zip" (boot 1767225600000)) = accept.
Proof. reflexivity. Qed.

(** A key that is neither stored nor a property of [Object.prototype] is
    reported as not found. *)
Lemma unknown_key_not_found (env : Env) (l d f : string) (w : World) :
  licenses env !! l = None ->
  ~ In l Object_prototype ->
  fst (validateLicense env l d f w) = reject "License not found".
Proof.
  intros Hl Hp. rewrite validateLicense_verdict. unfold verdict, checks, get.
  rewrite Hl. destruct (JS.array_includes Object_prototype l) eqn:E.
  - apply array_includes_spec in E. contradiction.
  - reflexivity.
Qed.

(** The lookup is case-sensitive. *)
Example lowercase_key_not_found :
  fst (validateLicense sample_env "abc-123-xyz" "localhost" "theme-a/demo.zip"
         sample_world) = reject "License not found".
Proof. reflexivity. Qed.

(** A key that names a property of [Object.prototype] resolves to the
    inherited value, which has no [active]. *)
Lemma inherited_key_inactive (env : Env) (l d f : string) (w : World) :
  licenses env !! l = None ->
  In l Object_prototype ->
  fst (validateLicense env l d f w) = reject "License inactive".
Proof.
  intros Hl Hp. rewrite validateLicense_verdict. unfold verdict, checks, get.
  rewrite Hl. apply array_includes_spec in Hp. now rewrite Hp.
Qed.

(** C5: the key "constructor" is not a key of the table, yet the Validator
    does not answer "License not found" for it: [LICENSES["constructor"]] is
    the function inherited from [Object.prototype], so the not-found check
    passes and the request is answered 403 "License inactive". *)
Theorem inherited_key_not_reported_missing (d f : string) (w : World) :
  LICENSES !! "constructor" = None /\
  fst (validateLicense sample_env "constructor" d f w) = reject "License inactive" /\
  fst (validateLicense sample_env "constructor" d f w) <> reject "License not found" /\
  fst (app sample_env
         (post (Some "constructor") (Some "localhost") (Some "theme-a/demo.zip"))
         sample_world) = json 403 (Failure "License inactive").
Proof.
  assert (H : fst (validateLicense sample_env "constructor" d f w) =
              reject "License inactive").
  { apply inherited_key_inactive; [reflexivity | now left]. }
  split; [reflexivity |]. split; [exact H |]. split; [| reflexivity].
  rewrite H. discriminate.
Qed.

(** ** The URL Issuer *)

Lemma validator_events_filter_signer (env : Env) (l d f : string) :
  filter is_signer_call (validator_events env l d f) = [].
Proof.
  unfold validator_events.
  destruct (get (licenses env) l) as [|lic|name]; [reflexivity | | reflexivity].
  now destruct (active lic).
Qed.

Lemma TimeClip_in_range (v : Z) : Z.abs v <= Date.maxTime -> Date.TimeClip v = Some v.
Proof. unfold Date.TimeClip. intros H. apply Z.leb_le in H. now rewrite H. Qed.

Section Issuing.

Variable env : Env.
Variable req : Request.
Variable w : World.
Variables l d f : string.

Hypothesis license_present : license (body req) = Some l.
Hypothesis license_not_empty : l <> "".
Hypothesis domain_present : domain (body req) = Some d.
Hypothesis domain_not_empty : d <> "".
Hypothesis file_present : file (body req) = Some f.
Hypothesis file_safe : safe_name f.
Hypothesis entitled : ok (fst (validateLicense env l d f w)) = true.

Let command := mkCommand (R2_BUCKET env) f.

Lemma issuing_complete : complete (body req) = true.
Proof.
  apply (present_complete _ l d f); try assumption.
  destruct file_safe as [stem [-> [Hne _]]]. destruct stem; [congruence | discriminate].
Qed.

Lemma issuing_name_ok : Regex.test fileNamePattern (JS.str (file (body req))) = true.
Proof. rewrite (str_some _ _ file_present). now apply fileNamePattern_spec. Qed.

Lemma issuing_checks_pass :
  first_failure (checks env (now w) (JS.str (license (body req)))
                   (JS.str (domain (body req))) (JS.str (file (body req)))) = None.
Proof.
  rewrite (str_some _ _ license_present), (str_some _ _ domain_present),
    (str_some _ _ file_present).
  apply verdict_ok. now rewrite <- validateLicense_verdict.
Qed.

(** The run of the handler when the signer resolves in time. *)
Lemma issuing_resolved (signedUrl : string) :
  getSignedUrl env command 600 (now w) = Resolved signedUrl ->
  Z.abs (now w + signing_ms env + 600 * 1000) <= Date.maxTime ->
  exists iso,
    Date.toISOString (Some (now (snd (download env req w)) + 600 * 1000)) = Some iso /\
    fst (download env req w) =
      mkResponse 200 (Success "License and domain verified"
                        (mkGrant signedUrl 600 iso f)) /\
    filter is_signer_call (emitted (download env req) w) =
      [Call_generateSignedUrl f; Call_getSignedUrl command 600].
Proof.
  intros Hs Hrange.
  pose proof (download_resolved env req w signedUrl issuing_complete
                issuing_name_ok issuing_checks_pass) as Hrun.
  rewrite (str_some _ _ file_present) in Hrun. specialize (Hrun Hs).
  cbv zeta in Hrun. rewrite (TimeClip_in_range _ Hrange) in Hrun.
  destruct (Date.toISOString (Some (now w + signing_ms env + 600 * 1000)))
    as [iso|] eqn:Eiso; [| discriminate Eiso].
  exists iso. rewrite Hrun. cbn [fst snd]. split; [exact Eiso |].
  split; [reflexivity |].
  rewrite (emitted_extend _ _ _ _ _ Hrun).
  rewrite !filter_app, validator_events_filter_signer. reflexivity.
Qed.

(** The run of the handler when the signer throws. *)
Lemma issuing_threw (err : string) :
  getSignedUrl env command 600 (now w) = Threw err ->
  fst (download env req w) =
    json 500 (Failure "Failed to generate download URL. Please try again later.") /\
  filter is_signer_call (emitted (download env req) w) =
    [Call_generateSignedUrl f; Call_getSignedUrl command 600].
Proof.
  intros Hs.
  pose proof (download_threw env req w err issuing_complete
                issuing_name_ok issuing_checks_pass) as Hrun.
  rewrite (str_some _ _ file_present) in Hrun. specialize (Hrun Hs).
  rewrite Hrun. split; [reflexivity |].
  rewrite (emitted_extend _ _ _ _ _ Hrun).
  rewrite !filter_app, validator_events_filter_signer. reflexivity.
Qed.

End Issuing.

(** C7: for a fully valid triple whose signing call resolves, the signer is
    called once, for a URL valid for 600 seconds, and the answer is 200 with
    the payload [{ success: true, message, data: { url, expires_in: 600,
    expires_at, file } }]: [url] is what the signer returned, [expires_at]
    is the ISO-8601 form of the time of the answer plus 600 seconds, and
    [file] is the requested file unchanged.  (The time of the answer plus
    600 seconds is taken to be a time value a [Date] can hold.) *)
Theorem grant_valid_for_600_seconds (env : Env) (req : Request) (w : World)
    (l d f signedUrl : string) :
  license (body req) = Some l -> l <> "" ->
  domain (body req) = Some d -> d <> "" ->
  file (body req) = Some f -> safe_name f ->
  ok (fst (validateLicense env l d f w)) = true ->
  getSignedUrl env (mkCommand (R2_BUCKET env) f) 600 (now w) = Resolved signedUrl ->
  Z.abs (now w + signing_ms env + 600 * 1000) <= Date.maxTime ->
  exists iso,
    Date.toISOString (Some (now (snd (download env req w)) + 600 * 1000)) = Some iso /\
    fst (download env req w) =
      mkResponse 200 (Success "License and domain verified"
                        (mkGrant signedUrl 600 iso f)) /\
    filter is_signer_call (emitted (download env req) w) =
      [Call_generateSignedUrl f;
       Call_getSignedUrl (mkCommand (R2_BUCKET env) f) 600].
Proof.
  intros El Hl Ed Hd Ef Hsafe Hok Hs Hrange.
  exact (issuing_resolved env req w l d f El Hl Ed Hd Ef Hsafe Hok signedUrl Hs Hrange).
Qed.

Lemma grant_valid_for_600_seconds_witness :
  license (body valid) = Some "ABC-123-XYZ" /\ "ABC-123-XYZ" <> "" /\
  domain (body valid) = Some "demo.yourtheme.com" /\ "demo.yourtheme.com" <> "" /\
  file (body valid) = Some "theme-a/demo.zip" /\ safe_name "theme-a/demo.zip" /\
  ok (fst (validateLicense sample_env "ABC-123-XYZ" "demo.yourtheme.com"
             "theme-a/demo.zip" sample_world)) = true /\
  getSignedUrl sample_env (mkCommand (R2_BUCKET sample_env) "theme-a/demo.zip") 600
    (now sample_world) =
    Resolved "https://r2.example/theme-a/demo.zip?X-Amz-Expires=600" /\
  Z.abs (now sample_world + signing_ms sample_env + 600 * 1000) <= Date.maxTime /\
  exists iso,
    Date.toISOString
      (Some (now (snd (download sample_env valid sample_world)) + 600 * 1000)) =
      Some iso /\
    fst (download sample_env valid sample_world) =
      mkResponse 200
        (Success "License and domain verified"
           (mkGrant "https://r2.example/theme-a/demo.zip?X-Amz-Expires=600" 600 iso
              "theme-a/demo.zip")) /\
    filter is_signer_call (emitted (download sample_env valid) sample_world) =
      [Call_generateSignedUrl "theme-a/demo.zip";
       Call_getSignedUrl (mkCommand (R2_BUCKET sample_env) "theme-a/demo.zip") 600].
Proof.
  assert (Hrange : Z.abs (now sample_world + signing_ms sample_env + 600 * 1000)
                   <= Date.maxTime) by (vm_compute; discriminate).
  do 5 (split; [first [reflexivity | discriminate] |]).
  split; [exact safe_name_sample |].
  split; [reflexivity |]. split; [reflexivity |]. split; [exact Hrange |].
  exact (grant_valid_for_600_seconds sample_env valid sample_world
           "ABC-123-XYZ" "demo.yourtheme.com" "theme-a/demo.zip"
           "https://r2.example/theme-a/demo.zip?X-Amz-Expires=600"
           eq_refl ltac:(discriminate) eq_refl ltac:(discriminate) eq_refl
           safe_name_sample eq_refl eq_refl Hrange).
Defined.

(** The payload of the seeded example, as the client sees it. *)
Example seeded_grant :
  fst (app sample_env valid sample_world) =
  mkResponse 200
    (Success "License and domain verified"
       (mkGrant "https://r2.example/theme-a/demo.zip?X-Amz-Expires=600" 600
          "2025-11-02T23:45:25.148Z" "theme-a/demo.zip")).
Proof. reflexivity. Qed.

(** C8: when a request passes all validation and the signing call fails,
    the answer is 500 with the message "Failed to generate download URL.
    Please try again later." and nothing else: it is the same whatever the
    failure was, and the signer was called once, not again.  Indeed every
    answer 500 of the handler carries that message and no other. *)
Theorem signing_failure_generic_500 (env : Env) (req : Request) (w : World)
    (l d f err : string) :
  license (body req) = Some l -> l <> "" ->
  domain (body req) = Some d -> d <> "" ->
  file (body req) = Some f -> safe_name f ->
  ok (fst (validateLicense env l d f w)) = true ->
  getSignedUrl env (mkCommand (R2_BUCKET env) f) 600 (now w) = Threw err ->
  fst (download env req w) =
    json 500 (Failure "Failed to generate download URL. Please try again later.") /\
  filter is_signer_call (emitted (download env req) w) =
    [Call_generateSignedUrl f;
     Call_getSignedUrl (mkCommand (R2_BUCKET env) f) 600] /\
  (forall env' req' w',
     status (fst (download env' req' w')) = 500 ->
     payload (fst (download env' req' w')) =
     Failure "Failed to generate download URL. Please try again later.").
Proof.
  intros El Hl Ed Hd Ef Hsafe Hok Hs.
  destruct (issuing_threw env req w l d f El Hl Ed Hd Ef Hsafe Hok err Hs) as [H1 H2].
  split; [exact H1 |]. split; [exact H2 |].
  intros env' req' w'. apply every_500_is_generic.
Qed.

Lemma signing_failure_generic_500_witness :
  license (body valid) = Some "ABC-123-XYZ" /\ "ABC-123-XYZ" <> "" /\
  domain (body valid) = Some "demo.yourtheme.com" /\ "demo.yourtheme.com" <> "" /\
  file (body valid) = Some "theme-a/demo.zip" /\ safe_name "theme-a/demo.zip" /\
  ok (fst (validateLicense failing_env "ABC-123-XYZ" "demo.yourtheme.com"
             "theme-a/demo.zip" sample_world)) = true /\
  getSignedUrl failing_env (mkCommand (R2_BUCKET failing_env) "theme-a/demo.zip") 600
    (now sample_world) =
    Threw "CredentialsProviderError: Could not load credentials" /\
  fst (download failing_env valid sample_world) =
    json 500 (Failure "Failed to generate download URL. Please try again later.") /\
  filter is_signer_call (emitted (download failing_env valid) sample_world) =
    [Call_generateSignedUrl "theme-a/demo.zip";
     Call_getSignedUrl (mkCommand (R2_BUCKET failing_env) "theme-a/demo.zip") 600] /\
  status (fst (download failing_env valid sample_world)) = 500 /\
  payload (fst (download failing_env valid sample_world)) =
    Failure "Failed to generate download URL. Please try again later.".
Proof.
  do 5 (split; [first [reflexivity | discriminate] |]).
  split; [exact safe_name_sample |].
  split; [reflexivity |]. split; [reflexivity |].
  pose proof (signing_failure_generic_500 failing_env valid sample_world
                "ABC-123-XYZ" "demo.yourtheme.com" "theme-a/demo.zip"
                "CredentialsProviderError: Could not load credentials"
                eq_refl ltac:(discriminate) eq_refl ltac:(discriminate) eq_refl
                safe_name_sample eq_refl eq_refl) as [H1 [H2 H3]].
  split; [exact H1 |]. split; [exact H2 |]. split; [reflexivity |].
  exact (H3 failing_env valid sample_world eq_refl).
Defined.

(** ** The application as deployed *)

(** [app] is the handler behind the origin check. *)
Lemma app_run (env : Env) (req : Request) (w : World) :
  app env req w =
  if corsOrigin (origin req) then download env req w
  else (mkResponse 500 (ServerError "Not allowed by CORS"), w).
Proof.
  unfold app, post_download, dispatch, cors, express_json, bind, ret.
  destruct (corsOrigin (origin req)); [| reflexivity].
  now destruct (download env req w).
Qed.

(** The application never answers 429, never touches the limiter's store
    and never enters the limiter. *)
Lemma app_never_limits (env : Env) (req : Request) (w : World) :
  status (fst (app env req w)) <> 429 /\
  hits (snd (app env req w)) = hits w /\
  existsb is_limiter_call (emitted (app env req) w) = false.
Proof.
  pose proof (app_run env req w) as E.
  destruct (corsOrigin (origin req)).
  - destruct (download_runs env req w) as [r [es [ms [Hrun [Hr Hes]]]]].
    rewrite Hrun in E. rewrite (emitted_extend _ _ _ _ _ E), E. cbn.
    split; [| now split].
    apply handler_answer_status in Hr. simpl in Hr. intros H429. rewrite H429 in Hr.
    destruct Hr as [H | [H | [H | [H | []]]]]; discriminate H.
  - rewrite (emitted_nothing _ _ _ E), E. cbn. repeat split. discriminate.
Qed.

(** However often a client repeats a request, no answer is 429 and the
    limiter's store is as it was. *)
Lemma serve_never_limits (env : Env) (gap : Z) (n : nat) (req : Request) (w : World) :
  Forall (fun r => status r <> 429) (fst (serve (post_download env) gap n req w)) /\
  hits (snd (serve (post_download env) gap n req w)) = hits w.
Proof.
  revert w. induction n as [|n IH]; intros w; cbn [serve].
  - split; [constructor | reflexivity].
  - destruct (app_never_limits env req w) as [Hs [Hh _]].
    unfold app in Hs, Hh. unfold bind.
    destruct (dispatch (post_download env) req w) as [r w1].
    cbn [fst snd] in Hs, Hh. cbn [elapse].
    destruct (IH (mkWorld (now w1 + gap) (trace w1) (hits w1))) as [Hall Hhits].
    destruct (serve (post_download env) gap n req _) as [rs w2].
    cbn [fst snd ret hits] in *. split; [now constructor | congruence].
Qed.

(** C1: the limiter is built but never mounted, so no request to
    [POST /download] is metered.  Thirty-one valid requests from one client,
    a second apart, are all answered 200: the thirty-first is not answered
    429, the limiter is never entered and its store stays empty.  No request
    is ever answered 429, however many came before it. *)
Theorem thirty_first_request_not_limited :
  map status (fst (serve (post_download sample_env) 1000 31 burst sample_world)) =
    repeat 200 31 /\
  nth 30 (map status (fst (serve (post_download sample_env) 1000 31 burst sample_world))) 0
    <> 429 /\
  hits (snd (serve (post_download sample_env) 1000 31 burst sample_world)) = ∅ /\
  existsb is_limiter_call
    (trace (snd (serve (post_download sample_env) 1000 31 burst sample_world))) = false /\
  (forall env gap n req w,
     Forall (fun r => status r <> 429) (fst (serve (post_download env) gap n req w)) /\
     hits (snd (serve (post_download env) gap n req w)) = hits w).
Proof.
  split; [vm_compute; reflexivity |].
  split; [vm_compute; discriminate |].
  split; [vm_compute; reflexivity |].
  split; [vm_compute; reflexivity |].
  intros env gap n req w. apply serve_never_limits.
Qed.

(** With the limiter mounted on the route the same client is answered 429
    from the thirty-first request on. *)
Lemma limiter_when_mounted :
  map status (fst (serve (post_download_limited sample_env) 1000 32 burst sample_world)) =
  (repeat 200 30 ++ [429; 429])%list.
Proof. vm_compute. reflexivity. Qed.

(** And a request after the window has elapsed opens a new window. *)
Lemma limiter_window_resets :
  map status (fst (serve (post_download_limited sample_env) 31000 32 burst sample_world)) =
  (repeat 200 30 ++ [200; 200])%list.
Proof. vm_compute. reflexivity. Qed.

(** ** Every run of the handler *)

Lemma download_handled (env : Env) (req : Request) (w : World) :
  handled env req w (download env req w).
Proof.
  destruct (complete (body req)) eqn:Hc.
  2:{ rewrite (download_incomplete env req w Hc). now constructor. }
  destruct (Regex.test fileNamePattern (JS.str (file (body req)))) eqn:Ht.
  2:{ rewrite (download_bad_name env req w Hc Ht). now constructor. }
  destruct (first_failure (checks env (now w) (JS.str (license (body req)))
                             (JS.str (domain (body req))) (JS.str (file (body req)))))
    as [reason|] eqn:Hr.
  { rewrite (download_rejected env req w reason Hc Ht Hr). now constructor. }
  destruct (getSignedUrl env (mkCommand (R2_BUCKET env) (JS.str (file (body req))))
              600 (now w)) as [signedUrl|err] eqn:Hs.
  - pose proof (download_resolved env req w signedUrl Hc Ht Hr Hs) as Hrun.
    cbv zeta in Hrun.
    destruct (Date.toISOString _) as [iso|] eqn:Eiso.
    + pose proof (H_granted env req w signedUrl iso Hc Ht Hr Hs Eiso) as H.
      match type of H with
      | handled _ _ _ ?p => replace (download env req w) with p; [exact H |]
      end.
      rewrite Hrun. unfold later, extend. cbn [now trace hits].
      repeat rewrite <- List.app_assoc. reflexivity.
    + pose proof (H_out_of_range env req w signedUrl Hc Ht Hr Hs Eiso) as H.
      match type of H with
      | handled _ _ _ ?p => replace (download env req w) with p; [exact H |]
      end.
      rewrite Hrun. unfold later, extend. cbn [now trace hits].
      repeat rewrite <- List.app_assoc. reflexivity.
  - rewrite (download_threw env req w err Hc Ht Hr Hs). now constructor.
Qed.

Lemma get_own_inv (o : gmap string LicenseRecord) (key : string) (lic : LicenseRecord) :
  get o key = Own lic -> o !! key = Some lic.
Proof.
  unfold get. destruct (o !! key) as [lic'|].
  - now intros [= ->].
  - destruct (JS.array_includes Object_prototype key); discriminate.
Qed.

(** What passing all five checks means. *)
Lemma checks_pass_inv (env : Env) (t : Z) (l d f : string) :
  first_failure (checks env t l d f) = None ->
  exists lic,
    licenses env !! l = Some lic /\ active lic = true /\
    Date.lt (Date_parse env (expires lic)) (Some t) = false /\
    (exists allowed, In allowed (domains lic) /\ is_substring allowed d) /\
    In f (files lic).
Proof.
  unfold checks. destruct (get (licenses env) l) as [|lic|name] eqn:Eg; cbn;
    [intros H; discriminate H | | intros H; discriminate H].
  destruct (active lic) eqn:Ha; cbn; [| intros H; discriminate H].
  destruct (Date.lt _ _) eqn:He; cbn; [intros H; discriminate H |].
  destruct (JS.some _ _) eqn:Hd; cbn; [| intros H; discriminate H].
  destruct (JS.array_includes _ _) eqn:Hf; cbn; [| intros H; discriminate H].
  intros _. exists lic. split; [now apply get_own_inv |].
  split; [exact Ha |]. split; [exact He |]. split.
  - now apply some_includes_spec.
  - now apply array_includes_spec.
Qed.

Lemma complete_present (b : Body) :
  complete b = true ->
  exists l d f,
    license b = Some l /\ l <> "" /\ domain b = Some d /\ d <> "" /\
    file b = Some f /\ f <> "".
Proof.
  intros H. apply complete_fields in H as [Hl [Hd Hf]].
  apply truthy_spec in Hl as [l [El Hl]]. apply truthy_spec in Hd as [d [Ed Hd]].
  apply truthy_spec in Hf as [f [Ef Hf]]. exists l, d, f. auto 10.
Qed.

Lemma first_failure_reason (env : Env) (t : Z) (l d f reason : string) :
  first_failure (checks env t l d f) = Some reason -> In reason reasons.
Proof.
  unfold checks, reasons. cbn.
  repeat match goal with
         | |- context [if ?b then _ else _] => destruct b
         end;
    intros [= <-]; simpl; auto 10.
Qed.

Lemma toISOString_clipped (v : Z) (iso : string) :
  Date.toISOString (Date.TimeClip v) = Some iso ->
  Z.abs v <= Date.maxTime /\ Date.toISOString (Some v) = Some iso.
Proof.
  unfold Date.TimeClip. destruct (Z.leb_spec (Z.abs v) Date.maxTime) as [H|H].
  - intros E. now split.
  - discriminate.
Qed.

(** X1. No grant without entitlement: an answer 200 is given only to a
    request whose three fields are present, whose file matches the grammar
    and is listed by the record the key resolves to, whose record is active
    and not expired when the request arrives, and whose domain holds an
    entry of the record; the URL is the one the signer returned for exactly
    that file, asked at the time of arrival, and [expires_at] is 600 seconds
    after the time of the answer, that is after arrival plus the time the
    signing took. *)
Theorem grant_implies_entitlement (env : Env) (req : Request) (w : World) :
  status (fst (download env req w)) = 200 ->
  exists l d f lic signedUrl iso,
    license (body req) = Some l /\ domain (body req) = Some d /\
    file (body req) = Some f /\ safe_name f /\
    licenses env !! l = Some lic /\ active lic = true /\
    Date.lt (Date_parse env (expires lic)) (Some (now w)) = false /\
    (exists allowed, In allowed (domains lic) /\ is_substring allowed d) /\
    In f (files lic) /\
    getSignedUrl env (mkCommand (R2_BUCKET env) f) 600 (now w) = Resolved signedUrl /\
    Date.toISOString (Some (now w + signing_ms env + 600 * 1000)) = Some iso /\
    fst (download env req w) =
      json 200 (Success "License and domain verified" (mkGrant signedUrl 600 iso f)).
Proof.
  destruct (download_handled env req w)
    as [Hc | Hc Ht | reason Hc Ht Hr | err Hc Ht Hr Hs | u Hc Ht Hr Hs Hiso
        | u iso Hc Ht Hr Hs Hiso]; cbn [fst status json]; try discriminate.
  intros _.
  destruct (complete_present _ Hc) as [l [d [f [El [_ [Ed [_ [Ef _]]]]]]]].
  rewrite (str_some _ _ El), (str_some _ _ Ed), (str_some _ _ Ef) in *.
  destruct (checks_pass_inv _ _ _ _ _ Hr) as [lic [Hl [Ha [He [Hd Hf]]]]].
  apply toISOString_clipped in Hiso as [_ Hiso].
  exists l, d, f, lic, u, iso. repeat split; try assumption.
  now apply fileNamePattern_spec.
Qed.

Lemma grant_implies_entitlement_witness :
  status (fst (download sample_env valid sample_world)) = 200 /\
  exists l d f lic signedUrl iso,
    license (body valid) = Some l /\ domain (body valid) = Some d /\
    file (body valid) = Some f /\ safe_name f /\
    licenses sample_env !! l = Some lic /\ active lic = true /\
    Date.lt (Date_parse sample_env (expires lic)) (Some (now sample_world)) = false /\
    (exists allowed, In allowed (domains lic) /\ is_substring allowed d) /\
    In f (files lic) /\
    getSignedUrl sample_env (mkCommand (R2_BUCKET sample_env) f) 600 (now sample_world)
      = Resolved signedUrl /\
    Date.toISOString (Some (now sample_world + signing_ms sample_env + 600 * 1000))
      = Some iso /\
    fst (download sample_env valid sample_world) =
      json 200 (Success "License and domain verified" (mkGrant signedUrl 600 iso f)).
Proof.
  split; [reflexivity |].
  exact (grant_implies_entitlement sample_env valid sample_world eq_refl).
Defined.

Lemma verdict_of_first_failure (env : Env) (l d f : string) (w : World) :
  ok (fst (validateLicense env l d f w)) =
  match first_failure (checks env (now w) l d f) with
  | None => true
  | Some _ => false
  end.
Proof.
  rewrite validateLicense_verdict. unfold verdict.
  now destruct (first_failure _).
Qed.

(** X2. The signer is called after all validation and not otherwise, and
    never twice: the handler enters [generateSignedUrl] and the signer once
    each, for the requested file and 600 seconds, exactly when the three
    fields are present, the file name matches the grammar and the Validator
    accepts; in every other run it makes no call to either. *)
Theorem signer_called_once_after_validation (env : Env) (req : Request) (w : World) :
  filter is_signer_call (emitted (download env req) w) =
  if complete (body req)
     && Regex.test fileNamePattern (JS.str (file (body req)))
     && ok (fst (validateLicense env (JS.str (license (body req)))
                   (JS.str (domain (body req))) (JS.str (file (body req))) w))
  then [ Call_generateSignedUrl (JS.str (file (body req)));
         Call_getSignedUrl (mkCommand (R2_BUCKET env) (JS.str (file (body req)))) 600 ]
  else [].
Proof.
  rewrite verdict_of_first_failure.
  pose proof (download_handled env req w) as H.
  remember (download env req w) as run eqn:Erun in H.
  destruct H as [Hc | Hc Ht | reason Hc Ht Hr | err Hc Ht Hr Hs | u Hc Ht Hr Hs Hiso
                 | u iso Hc Ht Hr Hs Hiso];
    rewrite Hc; try rewrite Ht; try rewrite Hr; cbn [andb];
    first [ rewrite (emitted_events _ _ _ _ (eq_sym Erun))
          | rewrite (emitted_extend _ _ _ _ _ (eq_sym Erun)) ];
    rewrite ?filter_app, ?validator_events_filter_signer; reflexivity.
Qed.

(** X3. The shape of every answer of the handler: the status is 200, 400,
    403 or 500; the payload says [success: true] exactly when the status is
    200; an answer 400 carries one of the two shape messages, an answer 403
    one of the five reasons of the Validator, an answer 500 the generic
    message. *)
Theorem answer_shape (env : Env) (req : Request) (w : World) :
  In (status (fst (download env req w))) [200; 400; 403; 500] /\
  (status (fst (download env req w)) = 200 <->
   exists message data, payload (fst (download env req w)) = Success message data) /\
  (status (fst (download env req w)) = 400 ->
   payload (fst (download env req w)) = Failure "Missing license, domain, or file" \/
   payload (fst (download env req w)) = Failure "Invalid file name") /\
  (status (fst (download env req w)) = 403 ->
   exists reason,
     In reason reasons /\ payload (fst (download env req w)) = Failure reason) /\
  (status (fst (download env req w)) = 500 ->
   payload (fst (download env req w)) =
   Failure "Failed to generate download URL. Please try again later.").
Proof.
  destruct (download_handled env req w)
    as [Hc | Hc Ht | reason Hc Ht Hr | err Hc Ht Hr Hs | u Hc Ht Hr Hs Hiso
        | u iso Hc Ht Hr Hs Hiso]; cbn [fst status payload json].
  all: split; [simpl; tauto |].
  all: split; [split; [try discriminate; eauto | intros [m [g E]]; try discriminate E; reflexivity] |].
  all: split; [first [discriminate | intros _; auto] |].
  all: split; [first [discriminate | intros _] | first [discriminate | reflexivity]].
  exists reason. split; [| reflexivity]. now apply (first_failure_reason env (now w) _ _ _ _ Hr).
Qed.

Lemma framed {A : Type} (a b : A) (middle tail : list A) (z : A) :
  ([a; b] ++ middle ++ (tail ++ [z]))%list = (a :: (b :: middle ++ tail) ++ [z])%list.
Proof. cbn. now rewrite <- List.app_assoc. Qed.

(** X4. What the handler logs: the first thing every run does is to log the
    request at level info, and the last event of every run is a log line
    whose level tells the outcome: info for 200, warn for 400 and 403, error
    for 500. *)
Theorem log_frames_every_run (env : Env) (req : Request) (w : World) :
  exists events fields msg,
    emitted (download env req) w =
      (received req :: events ++
       [Log (level_of_status (status (fst (download env req w)))) fields msg])%list.
Proof.
  pose proof (download_handled env req w) as H.
  remember (download env req w) as run eqn:Erun in H.
  destruct H as [Hc | Hc Ht | reason Hc Ht Hr | err Hc Ht Hr Hs | u Hc Ht Hr Hs Hiso
                 | u iso Hc Ht Hr Hs Hiso];
    first [ rewrite (emitted_events _ _ _ _ (eq_sym Erun))
          | rewrite (emitted_extend _ _ _ _ _ (eq_sym Erun)) ];
    rewrite <- Erun; cbn [fst status json level_of_status Z.eqb Pos.eqb].
  - now exists [], [("ip", clientIp req)], "Missing required fields".
  - eexists [_], _, _. reflexivity.
  - eexists _, _, _. exact (framed _ _ _ [] _).
  - eexists _, _, _. exact (framed _ _ _ [_; _] _).
  - eexists _, _, _. exact (framed _ _ _ [_; _; _] _).
  - eexists _, _, _. exact (framed _ _ _ [_; _] _).
Qed.

(** X5. The signed URL is never logged and leaves no trace in the process:
    whatever URL the signer returns, the trace (with every log line), the
    clock and the limiter's store after the run are the same. *)
Theorem signed_url_never_logged (env : Env) (req : Request) (w : World)
    (signer signer' : GetObjectCommand -> Z -> Z -> Settled) (u u' : string) :
  signer (mkCommand (R2_BUCKET env) (JS.str (file (body req)))) 600 (now w)
    = Resolved u ->
  signer' (mkCommand (R2_BUCKET env) (JS.str (file (body req)))) 600 (now w)
    = Resolved u' ->
  snd (download (with_signer env signer) req w) =
  snd (download (with_signer env signer') req w).
Proof.
  intros Hs Hs'.
  destruct (complete (body req)) eqn:Hc.
  2:{ now rewrite !download_incomplete. }
  destruct (Regex.test fileNamePattern (JS.str (file (body req)))) eqn:Ht.
  2:{ now rewrite !download_bad_name. }
  destruct (first_failure (checks env (now w) (JS.str (license (body req)))
                             (JS.str (domain (body req))) (JS.str (file (body req)))))
    as [reason|] eqn:Hr.
  { rewrite (download_rejected (with_signer env signer) req w reason Hc Ht Hr).
    rewrite (download_rejected (with_signer env signer') req w reason Hc Ht Hr).
    reflexivity. }
  rewrite (download_resolved (with_signer env signer) req w u Hc Ht Hr Hs).
  rewrite (download_resolved (with_signer env signer') req w u' Hc Ht Hr Hs').
  cbv zeta. cbn [signing_ms with_signer].
  now destruct (Date.toISOString _).
Qed.

Lemma signed_url_never_logged_witness :
  sample_signer (mkCommand (R2_BUCKET sample_env) (JS.str (file (body valid)))) 600
    (now sample_world) = Resolved "https://r2.example/theme-a/demo.zip?X-Amz-Expires=600" /\
  (fun _ _ _ => Resolved "https://other.example/secret")
    (mkCommand (R2_BUCKET sample_env) (JS.str (file (body valid)))) 600
    (now sample_world) = Resolved "https://other.example/secret" /\
  snd (download (with_signer sample_env sample_signer) valid sample_world) =
  snd (download (with_signer sample_env (fun _ _ _ => Resolved "https://other.example/secret"))
         valid sample_world).
Proof.
  split; [reflexivity |]. split; [reflexivity |].
  exact (signed_url_never_logged sample_env valid sample_world sample_signer
           (fun _ _ _ => Resolved "https://other.example/secret")
           "https://r2.example/theme-a/demo.zip?X-Amz-Expires=600"
           "https://other.example/secret" eq_refl eq_refl).
Defined.

(** X6. No state persists across requests: what the handler answers and
    what it adds to the trace depend on the request and on the clock only,
    not on the trace so far nor on what the limiter's store holds. *)
Theorem answer_depends_on_clock_only (env : Env) (req : Request) (w w' : World) :
  now w = now w' ->
  fst (download env req w) = fst (download env req w') /\
  emitted (download env req) w = emitted (download env req) w'.
Proof.
  intros Hnow.
  destruct (complete (body req)) eqn:Hc.
  2:{ rewrite !(emitted_events _ _ _ _ (download_incomplete env req _ Hc)).
      now rewrite !download_incomplete. }
  destruct (Regex.test fileNamePattern (JS.str (file (body req)))) eqn:Ht.
  2:{ rewrite !(emitted_events _ _ _ _ (download_bad_name env req _ Hc Ht)).
      now rewrite !download_bad_name. }
  destruct (first_failure (checks env (now w) (JS.str (license (body req)))
                             (JS.str (domain (body req))) (JS.str (file (body req)))))
    as [reason|] eqn:Hr.
  { assert (Hr' := Hr). rewrite Hnow in Hr'.
    rewrite (emitted_events _ _ _ _ (download_rejected env req w reason Hc Ht Hr)).
    rewrite (emitted_events _ _ _ _ (download_rejected env req w' reason Hc Ht Hr')).
    rewrite (download_rejected env req w reason Hc Ht Hr).
    now rewrite (download_rejected env req w' reason Hc Ht Hr'). }
  assert (Hr' := Hr). rewrite Hnow in Hr'.
  destruct (getSignedUrl env (mkCommand (R2_BUCKET env) (JS.str (file (body req))))
              600 (now w)) as [u|err] eqn:Hs.
  - assert (Hs' := Hs). rewrite Hnow in Hs'.
    pose proof (download_resolved env req w u Hc Ht Hr Hs) as R.
    pose proof (download_resolved env req w' u Hc Ht Hr' Hs') as R'.
    cbv zeta in R, R'. rewrite <- Hnow in R'.
    destruct (Date.toISOString _);
      rewrite (emitted_extend _ _ _ _ _ R), (emitted_extend _ _ _ _ _ R'), R, R';
      now split.
  - assert (Hs' := Hs). rewrite Hnow in Hs'.
    pose proof (download_threw env req w err Hc Ht Hr Hs) as R.
    pose proof (download_threw env req w' err Hc Ht Hr' Hs') as R'.
    rewrite (emitted_extend _ _ _ _ _ R), (emitted_extend _ _ _ _ _ R'), R, R'.
    now split.
Qed.

Lemma answer_depends_on_clock_only_witness :
  now sample_world =
    now (mkWorld sample_time [Call_limiter "x"] (<["ABC-123-XYZ" := mkBucket 0 99]> ∅)) /\
  fst (download sample_env valid sample_world) =
    fst (download sample_env valid
           (mkWorld sample_time [Call_limiter "x"] (<["ABC-123-XYZ" := mkBucket 0 99]> ∅))) /\
  emitted (download sample_env valid) sample_world =
    emitted (download sample_env valid)
      (mkWorld sample_time [Call_limiter "x"] (<["ABC-123-XYZ" := mkBucket 0 99]> ∅)).
Proof.
  split; [reflexivity |].
  exact (answer_depends_on_clock_only sample_env valid sample_world
           (mkWorld sample_time [Call_limiter "x"] (<["ABC-123-XYZ" := mkBucket 0 99]> ∅))
           eq_refl).
Defined.

(** ** More on the Validator *)

Lemma string_app_assoc (a b c : string) : (a ++ b) ++ c = a ++ (b ++ c).
Proof. induction a as [|x a IH]; simpl; [reflexivity | now rewrite IH]. Qed.

Lemma is_substring_extend (a s pre post : string) :
  is_substring a s -> is_substring a (pre ++ s ++ post).
Proof.
  intros [p [q ->]]. exists (pre ++ p), (q ++ post).
  now rewrite !string_app_assoc.
Qed.

Lemma is_substring_refl (s : string) : is_substring s s.
Proof.
  exists "", "". simpl. induction s as [|c s IH]; simpl; [reflexivity | now rewrite <- IH].
Qed.

Lemma empty_is_substring (s : string) : is_substring "" s.
Proof. now exists "", s. Qed.

(** What a verdict of acceptance means. *)
Lemma accepted_inv (env : Env) (l d f : string) (w : World) :
  ok (fst (validateLicense env l d f w)) = true ->
  exists lic,
    licenses env !! l = Some lic /\ active lic = true /\
    Date.lt (Date_parse env (expires lic)) (Some (now w)) = false /\
    (exists allowed, In allowed (domains lic) /\ is_substring allowed d) /\
    In f (files lic).
Proof.
  rewrite verdict_of_first_failure.
  destruct (first_failure _) eqn:Hr; [discriminate |].
  intros _. now apply checks_pass_inv.
Qed.

Lemma accepted_intro (env : Env) (l d f : string) (w : World) (lic : LicenseRecord) :
  licenses env !! l = Some lic -> active lic = true ->
  Date.lt (Date_parse env (expires lic)) (Some (now w)) = false ->
  (exists allowed, In allowed (domains lic) /\ is_substring allowed d) ->
  In f (files lic) ->
  fst (validateLicense env l d f w) = accept.
Proof.
  intros Hl Ha He Hd Hf. rewrite (validateLicense_active env l d f w lic Hl Ha), He.
  apply some_includes_spec in Hd. apply array_includes_spec in Hf.
  now rewrite Hd, Hf.
Qed.

(** X7. The file check is an exact match: on a request that reaches it (the
    key resolves to an active record that has not expired and the domain
    holds one of its entries), the Validator accepts exactly when the file
    is an element of the record's [files], and rejects with "File not
    permitted for this license" otherwise; a file that merely contains, or
    is contained in, a listed one does not pass. *)
Theorem file_permitted_iff_listed (env : Env) (l d f : string) (w : World)
    (lic : LicenseRecord) :
  licenses env !! l = Some lic -> active lic = true ->
  Date.lt (Date_parse env (expires lic)) (Some (now w)) = false ->
  (exists allowed, In allowed (domains lic) /\ is_substring allowed d) ->
  (fst (validateLicense env l d f w) = accept <-> In f (files lic)) /\
  (~ In f (files lic) ->
   fst (validateLicense env l d f w) = reject "File not permitted for this license").
Proof.
  intros Hl Ha He Hd. rewrite (validateLicense_active env l d f w lic Hl Ha), He.
  apply some_includes_spec in Hd. rewrite Hd.
  destruct (JS.array_includes (files lic) f) eqn:Hf.
  - apply array_includes_spec in Hf. split; [tauto | contradiction].
  - assert (Hn : ~ In f (files lic)).
    { intros Hin. apply array_includes_spec in Hin. congruence. }
    split; [| reflexivity]. split; [discriminate | contradiction].
Qed.

Lemma file_permitted_iff_listed_witness :
  licenses sample_env !! "TEST-999-KEY" =
    Some (mkLicense true "2026-01-01" ["localhost"] ["package-install__woozio-main.zip"]) /\
  active (mkLicense true "2026-01-01" ["localhost"] ["package-install__woozio-main.zip"])
    = true /\
  Date.lt (Date_parse sample_env "2026-01-01") (Some (now sample_world)) = false /\
  (exists allowed, In allowed ["localhost"] /\ is_substring allowed "localhost") /\
  ~ In "woozio-main.zip" ["package-install__woozio-main.zip"] /\
  fst (validateLicense sample_env "TEST-999-KEY" "localhost" "woozio-main.zip"
         sample_world) = reject "File not permitted for this license" /\
  In "package-install__woozio-main.zip" ["package-install__woozio-main.zip"] /\
  fst (validateLicense sample_env "TEST-999-KEY" "localhost"
         "package-install__woozio-main.zip" sample_world) = accept.
Proof.
  assert (Hd : exists allowed, In allowed ["localhost"] /\ is_substring allowed "localhost").
  { exists "localhost". split; [now left | apply is_substring_refl]. }
  assert (Hn : ~ In "woozio-main.zip" ["package-install__woozio-main.zip"]).
  { intros [H | []]. discriminate H. }
  assert (Hin : In "package-install__woozio-main.zip" ["package-install__woozio-main.zip"])
    by now left.
  split; [reflexivity |]. split; [reflexivity |]. split; [reflexivity |].
  split; [exact Hd |]. split; [exact Hn |]. split.
  - exact (proj2 (file_permitted_iff_listed sample_env "TEST-999-KEY" "localhost"
                    "woozio-main.zip" sample_world _ eq_refl eq_refl eq_refl Hd) Hn).
  - split; [exact Hin |].
    exact (proj2 (proj1 (file_permitted_iff_listed sample_env "TEST-999-KEY" "localhost"
                           "package-install__woozio-main.zip" sample_world _
                           eq_refl eq_refl eq_refl Hd)) Hin).
Defined.

(** X8. The domain check is closed under extension: when the Validator
    accepts a triple, it accepts the same license and file for every domain
    that contains the accepted domain, whatever is put before and after
    it. *)
Theorem accepted_domain_extends (env : Env) (l d f : string) (w : World) :
  ok (fst (validateLicense env l d f w)) = true ->
  forall pre post, fst (validateLicense env l (pre ++ d ++ post) f w) = accept.
Proof.
  intros H pre post.
  destruct (accepted_inv env l d f w H) as [lic [Hl [Ha [He [[a [Hin Hsub]] Hf]]]]].
  apply (accepted_intro env l _ f w lic Hl Ha He); [| exact Hf].
  exists a. split; [exact Hin | now apply is_substring_extend].
Qed.

Lemma accepted_domain_extends_witness :
  ok (fst (validateLicense sample_env "ABC-123-XYZ" "woozio.local" "theme-a/demo.zip"
             sample_world)) = true /\
  fst (validateLicense sample_env "ABC-123-XYZ"
         ("evil-" ++ "woozio.local" ++ ".attacker.example") "theme-a/demo.zip"
         sample_world) = accept.
Proof.
  split; [reflexivity |].
  exact (accepted_domain_extends sample_env "ABC-123-XYZ" "woozio.local"
           "theme-a/demo.zip" sample_world eq_refl "evil-" ".attacker.example").
Defined.

(** X9. An empty string among a record's [domains] opens the record to
    every domain: [domain.includes("")] is true for every string, so for an
    active record that has not expired the domain check passes whatever the
    requested domain is, and the file check alone decides. *)
Theorem empty_entry_allows_every_domain (env : Env) (l d f : string) (w : World)
    (lic : LicenseRecord) :
  licenses env !! l = Some lic -> active lic = true ->
  Date.lt (Date_parse env (expires lic)) (Some (now w)) = false ->
  In "" (domains lic) ->
  fst (validateLicense env l d f w) <> reject "Domain not allowed" /\
  (In f (files lic) -> fst (validateLicense env l d f w) = accept).
Proof.
  intros Hl Ha He Hin.
  assert (Hd : exists allowed, In allowed (domains lic) /\ is_substring allowed d).
  { exists "". split; [exact Hin | apply empty_is_substring]. }
  split.
  - rewrite (validateLicense_active env l d f w lic Hl Ha), He.
    apply some_includes_spec in Hd. rewrite Hd.
    destruct (JS.array_includes _ _); discriminate.
  - intros Hf. now apply (accepted_intro env l d f w lic Hl Ha He Hd).
Qed.

Lemma empty_entry_allows_every_domain_witness :
  licenses edge_env !! "OPEN-KEY" = Some (mkLicense true "never" [""] ["pkg.zip"]) /\
  active (mkLicense true "never" [""] ["pkg.zip"]) = true /\
  Date.lt (Date_parse edge_env "never") (Some (now sample_world)) = false /\
  In "" [""] /\ In "pkg.zip" ["pkg.zip"] /\
  fst (validateLicense edge_env "OPEN-KEY" "anything.example" "pkg.zip" sample_world)
    = accept.
Proof.
  split; [reflexivity |]. split; [reflexivity |]. split; [reflexivity |].
  split; [now left |]. split; [now left |].
  exact (proj2 (empty_entry_allows_every_domain edge_env "OPEN-KEY" "anything.example"
                  "pkg.zip" sample_world _ eq_refl eq_refl eq_refl
                  (or_introl eq_refl))
           (or_introl eq_refl)).
Defined.

(** X10. A record with no domains, or with no files, grants nothing: for
    every domain, file and time the Validator rejects. *)
Theorem empty_lists_grant_nothing (env : Env) (l d f : string) (w : World)
    (lic : LicenseRecord) :
  licenses env !! l = Some lic ->
  domains lic = [] \/ files lic = [] ->
  ok (fst (validateLicense env l d f w)) = false.
Proof.
  intros Hl Hempty. destruct (ok _) eqn:Hok; [| reflexivity].
  destruct (accepted_inv env l d f w Hok) as [lic' [Hl' [_ [_ [[a [Hin _]] Hf]]]]].
  rewrite Hl in Hl'. injection Hl' as <-.
  destruct Hempty as [E | E]; rewrite E in *; contradiction.
Qed.

Lemma empty_lists_grant_nothing_witness :
  licenses edge_env !! "NO-DOMAINS" = Some (mkLicense true "2026-12-31" [] ["pkg.zip"]) /\
  (domains (mkLicense true "2026-12-31" [] ["pkg.zip"]) = [] \/
   files (mkLicense true "2026-12-31" [] ["pkg.zip"]) = []) /\
  ok (fst (validateLicense edge_env "NO-DOMAINS" "localhost" "pkg.zip" sample_world))
    = false /\
  licenses edge_env !! "NO-FILES" = Some (mkLicense true "2026-12-31" ["localhost"] []) /\
  (domains (mkLicense true "2026-12-31" ["localhost"] []) = [] \/
   files (mkLicense true "2026-12-31" ["localhost"] []) = []) /\
  ok (fst (validateLicense edge_env "NO-FILES" "localhost" "pkg.zip" sample_world))
    = false.
Proof.
  split; [reflexivity |]. split; [left; reflexivity |]. split.
  - exact (empty_lists_grant_nothing edge_env "NO-DOMAINS" "localhost" "pkg.zip"
             sample_world _ eq_refl (or_introl eq_refl)).
  - split; [reflexivity |]. split; [right; reflexivity |].
    exact (empty_lists_grant_nothing edge_env "NO-FILES" "localhost" "pkg.zip"
             sample_world _ eq_refl (or_intror eq_refl)).
Defined.

(** What a verdict of expiry means. *)
Lemma expired_inv (env : Env) (l d f : string) (w : World) :
  fst (validateLicense env l d f w) = reject "License expired" ->
  exists lic t,
    licenses env !! l = Some lic /\ active lic = true /\
    Date_parse env (expires lic) = Some t /\ t < now w.
Proof.
  rewrite validateLicense_verdict. unfold verdict, checks.
  destruct (get (licenses env) l) as [|lic|name] eqn:Eg; cbn; try discriminate.
  destruct (active lic) eqn:Ha; cbn; [| discriminate].
  unfold Date.lt. destruct (Date_parse env (expires lic)) as [t|] eqn:Ep; cbn.
  - destruct (Z.ltb_spec t (now w)) as [Hlt|Hge]; cbn.
    + intros _. exists lic, t. split; [now apply get_own_inv | auto].
    + destruct (JS.some _ _); cbn; [| discriminate].
      destruct (JS.array_includes _ _); discriminate.
  - destruct (JS.some _ _); cbn; [| discriminate].
    destruct (JS.array_includes _ _); discriminate.
Qed.

(** X11. Expiry is for good: once the Validator reports "License expired"
    for a key, it reports the same at every later time, for every domain and
    file. *)
Theorem expired_stays_expired (env : Env) (l d f : string) (w w' : World) :
  fst (validateLicense env l d f w) = reject "License expired" ->
  now w <= now w' ->
  forall d' f', fst (validateLicense env l d' f' w') = reject "License expired".
Proof.
  intros H Hle d' f'.
  destruct (expired_inv env l d f w H) as [lic [t [Hl [Ha [Ep Hlt]]]]].
  rewrite (validateLicense_active env l d' f' w' lic Hl Ha), Ep.
  unfold Date.lt. destruct (Z.ltb_spec t (now w')); [reflexivity | lia].
Qed.

Lemma expired_stays_expired_witness :
  fst (validateLicense sample_env "TEST-999-KEY" "localhost"
         "package-install__woozio-main.zip" (boot 1767225600001)) =
    reject "License expired" /\
  now (boot 1767225600001) <= now (boot 1798675200000) /\
  fst (validateLicense sample_env "TEST-999-KEY" "other.example" "other.zip"
         (boot 1798675200000)) = reject "License expired".
Proof.
  assert (Hle : now (boot 1767225600001) <= now (boot 1798675200000)) by (cbn; lia).
  split; [reflexivity |]. split; [exact Hle |].
  exact (expired_stays_expired sample_env "TEST-999-KEY" "localhost"
           "package-install__woozio-main.zip" (boot 1767225600001)
           (boot 1798675200000) eq_refl Hle "other.example" "other.zip").
Defined.

(** X12. An expiry that is not a date never expires: when [expires] does
    not parse, [new Date(expires)] is invalid, its comparison with the
    clock is false at every time, and the Validator decides an active record
    on domain and file alone. *)
Theorem unparsable_expiry_never_expires (env : Env) (l d f : string) (w : World)
    (lic : LicenseRecord) :
  licenses env !! l = Some lic -> active lic = true ->
  Date_parse env (expires lic) = None ->
  fst (validateLicense env l d f w) <> reject "License expired" /\
  fst (validateLicense env l d f w) =
    verdict [ (JS.some (domains lic) (fun allowed => JS.includes d allowed),
               "Domain not allowed");
              (JS.array_includes (files lic) f,
               "File not permitted for this license") ].
Proof.
  intros Hl Ha Ep. rewrite (validateLicense_active env l d f w lic Hl Ha), Ep.
  unfold verdict. cbn.
  destruct (JS.some _ _); cbn; [| split; [discriminate | reflexivity]].
  destruct (JS.array_includes _ _); split; first [discriminate | reflexivity].
Qed.

Lemma unparsable_expiry_never_expires_witness :
  licenses edge_env !! "OPEN-KEY" = Some (mkLicense true "never" [""] ["pkg.zip"]) /\
  active (mkLicense true "never" [""] ["pkg.zip"]) = true /\
  Date_parse edge_env (expires (mkLicense true "never" [""] ["pkg.zip"])) = None /\
  fst (validateLicense edge_env "OPEN-KEY" "localhost" "pkg.zip"
         (boot Date.maxTime)) <> reject "License expired".
Proof.
  split; [reflexivity |]. split; [reflexivity |]. split; [reflexivity |].
  exact (proj1 (unparsable_expiry_never_expires edge_env "OPEN-KEY" "localhost"
                  "pkg.zip" (boot Date.maxTime) _ eq_refl eq_refl eq_refl)).
Defined.

(** X13. What the Validator returns: either [{ ok: true }] without an
    error, or [{ ok: false, error }] with one of its five reasons; so [ok]
    is false exactly when an error is given. *)
Theorem validation_shape (env : Env) (l d f : string) (w : World) :
  (fst (validateLicense env l d f w) = accept \/
   exists reason, In reason reasons /\
                  fst (validateLicense env l d f w) = reject reason) /\
  (ok (fst (validateLicense env l d f w)) = false <->
   error (fst (validateLicense env l d f w)) <> None).
Proof.
  rewrite validateLicense_verdict. unfold verdict.
  destruct (first_failure _) as [reason|] eqn:Hr; cbn.
  - split; [right; exists reason; split;
            [now apply (first_failure_reason env (now w) l d f) | reflexivity] |].
    split; [discriminate | reflexivity].
  - split; [now left |]. split; [discriminate | congruence].
Qed.

(** X14. A key the table does not hold: the Validator stops at once, without
    reading the clock, with "License inactive" when the key is the name of
    a property every object inherits ([constructor], [toString], ...), and
    with "License not found" for every other key. *)
Theorem missing_key_verdict (env : Env) (l d f : string) (w : World) :
  licenses env !! l = None ->
  fst (validateLicense env l d f w) =
    (if JS.array_includes Object_prototype l
     then reject "License inactive" else reject "License not found") /\
  emitted (validateLicense env l d f) w = [Call_validateLicense l d f].
Proof.
  intros Hl. rewrite validateLicense_verdict, validateLicense_events.
  unfold verdict, checks, validator_events, get. rewrite Hl.
  now destruct (JS.array_includes Object_prototype l).
Qed.

Lemma missing_key_verdict_witness :
  licenses sample_env !! "abc-123-xyz" = None /\
  fst (validateLicense sample_env "abc-123-xyz" "localhost" "theme-a/demo.zip"
         sample_world) = reject "License not found" /\
  licenses sample_env !! "toString" = None /\
  fst (validateLicense sample_env "toString" "localhost" "theme-a/demo.zip"
         sample_world) = reject "License inactive".
Proof.
  split; [reflexivity |]. split.
  - exact (proj1 (missing_key_verdict sample_env "abc-123-xyz" "localhost"
                    "theme-a/demo.zip" sample_world eq_refl)).
  - split; [reflexivity |].
    exact (proj1 (missing_key_verdict sample_env "toString" "localhost"
                    "theme-a/demo.zip" sample_world eq_refl)).
Defined.

(** ** The origin check *)

Lemma allowed_prefix_spec (s : string) :
  JS.some allowedOrigins (fun allowed => JS.startsWith s allowed) = true <->
  exists allowed rest, In allowed allowedOrigins /\ s = allowed ++ rest.
Proof.
  unfold JS.some. rewrite existsb_exists. split.
  - intros [a [Hin H]]. apply startsWith_spec in H as [rest ->]. eauto.
  - intros [a [rest [Hin ->]]]. exists a. split; [exact Hin |].
    apply startsWith_spec. eauto.
Qed.

Lemma corsOrigin_spec (o : option string) :
  corsOrigin o = true <->
  o = None \/ o = Some "" \/
  exists allowed rest, In allowed allowedOrigins /\ o = Some (allowed ++ rest).
Proof.
  unfold corsOrigin. destruct o as [s|]; cbn [JS.truthy JS.str negb orb].
  - rewrite negb_involutive, orb_true_iff, String.eqb_eq, allowed_prefix_spec. split.
    + intros [-> | [a [rest [Hin ->]]]]; [auto | eauto 6].
    + intros [H | [[= ->] | [a [rest [Hin [= ->]]]]]]; [discriminate | auto | eauto].
  - split; [auto | reflexivity].
Qed.

(** X15. The origin callback lets a request through exactly when it has no
    Origin header (or an empty one) or its origin starts with one of the
    four allowed origins; so every origin that merely extends an allowed one
    passes as well. *)
Theorem origin_allowed_iff_prefixed (o : option string) :
  (corsOrigin o = true <->
   o = None \/ o = Some "" \/
   exists allowed rest, In allowed allowedOrigins /\ o = Some (allowed ++ rest)) /\
  (forall allowed rest,
     In allowed allowedOrigins -> corsOrigin (Some (allowed ++ rest)) = true).
Proof.
  split; [apply corsOrigin_spec |].
  intros allowed rest Hin. apply corsOrigin_spec. eauto 6.
Qed.

Lemma origin_allowed_iff_prefixed_witness :
  In "http://localhost" allowedOrigins /\
  corsOrigin (Some ("http://localhost" ++ ".attacker.example")) = true.
Proof.
  split; [now left |].
  exact (proj2 (origin_allowed_iff_prefixed None) "http://localhost"
           ".attacker.example" (or_introl eq_refl)).
Defined.



(** ** The first revision against the current one *)









